(** * EMG fatigue monitor (firmware/examples/Leguiza_Perez/main/Leguiza_Perez.c)

    A shallow embedding of the signal path of the firmware: the circular
    sample buffer, the window copy, the spectral features, the fatigue
    classifier of [EMGTask], the BLE command handler, and the properties
    the design document states about them.

    Conventions of the embedding.

    - C [float] is IEEE-754 binary32.  It is modelled with the Standard
      Library's [spec_float] at precision 24 and maximal exponent 128, so
      every sum, product, quotient and comparison rounds (or not) exactly
      as the firmware's arithmetic does.
    - The two frequency features only add, multiply, divide and compare.
      They are written over an interface [Arith], whose binary32 instance
      is the firmware; what is proved of them over the interface holds
      whatever the arithmetic does.
    - [int] is 32-bit two's complement ([wrap_int]), [uint16_t] is
      [u16]; [%] on [int] is [Z.rem].
    - A C array is a list; [a[i]] is [aget a i].  A read outside the
      array is undefined in C; the model reads zero there.
    - The filter and FFT kernels ([iir_filter.h], [fft.h]) are not part of
      the file; they are parameters ([kernels]).
    - What the task sends over BLE is kept as a list of structured
      messages, one constructor per [sprintf] format of the source.

    The source text of [EMGTask] is one closing brace short: the block
    opened by [else if(f_ref > 0.0f)] (line 269) has no brace of its own.
    Read by its braces, as a parser reads it, lines 293-335 lie inside
    that block, the brace of line 335 closes it, and the classifier code
    of lines 293-335 runs only on windows that take the branch of line
    269.  Read by its layout, the block ends after line 290 and lines
    293-335 follow it as a second statement of the loop body, run on
    every window.  The embedding has both ([reading]: [Braces] and
    [Layout]).  The classifier and everything built on it take the
    reading as a parameter; a property stated without naming a reading is
    proved for both, and a property that holds under one of them only
    names it. *)

From Stdlib Require Import ZArith SpecFloat Lia.
From Stdlib.Strings Require Import Ascii String Byte.
From stdpp Require Import base list.

Local Open Scope Z_scope.

(** ** Machine integers *)

Definition wrap_int (z : Z) : Z := (z + 2 ^ 31) mod 2 ^ 32 - 2 ^ 31.

Definition u16 (z : Z) : Z := z mod 2 ^ 16.

(** ** binary32 *)

Definition float : Type := spec_float.

Definition prec : Z := 24.
Definition emax : Z := 128.

Definition f32_zero : float := S754_zero false.
Definition f32_of_Z (z : Z) : float := binary_normalize prec emax z 0 false.
Definition f32_add : float -> float -> float := SFadd prec emax.
Definition f32_sub : float -> float -> float := SFsub prec emax.
Definition f32_mul : float -> float -> float := SFmul prec emax.
Definition f32_div : float -> float -> float := SFdiv prec emax.
Definition f32_sqrt : float -> float := SFsqrt prec emax.
(** [x > y] and [x >= y]; both are false when an operand is NaN. *)
Definition f32_gt (x y : float) : bool := SFltb y x.
Definition f32_ge (x y : float) : bool := SFleb y x.
Definition f32_le (x y : float) : bool := SFleb x y.

Definition is_zero32 (x : float) : bool :=
  match x with S754_zero _ => true | _ => false end.

#[global] Instance float_inhabited : Inhabited float := populate f32_zero.

(** ** The arithmetic the frequency features need *)

Class Arith (F : Type) : Type := {
  a_zero : F;
  a_two : F;
  a_add : F -> F -> F;
  a_mul : F -> F -> F;
  a_div : F -> F -> F;
  a_gt : F -> F -> bool;
  a_ge : F -> F -> bool
}.

#[global] Instance arith_f32 : Arith float := {|
  a_zero := f32_zero;
  a_two := f32_of_Z 2;
  a_add := f32_add;
  a_mul := f32_mul;
  a_div := f32_div;
  a_gt := f32_gt;
  a_ge := f32_ge
|}.

(** [a[i]] *)
Definition aget {F : Type} `{Arith F} (a : list F) (i : Z) : F :=
  if i <? 0 then a_zero else nth (Z.to_nat i) a a_zero.

(** ** Configuration macros *)

Definition BUFFER_SIZE : Z := 512.
Definition EMG_BUFFER_LEN : Z := 512.
Definition SAMPLE_FREQ : Z := 512.
Definition BASELINE_WINDOWS : Z := 5.
Definition CONSECUTIVE_WINDOWS : Z := 3.
(** [0.15f]: the binary32 number nearest to 15/100. *)
Definition FATIGUE_THRESHOLD : float := S754_finite false 10066330 (-26).

(** ** The circular sample buffer

    [emg_buffer], [write_index] and [sample_count].  The two functions
    are written over the macros [EMG_BUFFER_LEN] (here [LEN]) and
    [BUFFER_SIZE] (here [N]) so that their properties are stated for any
    capacity and any window length. *)

Record sample_buffer : Type := {
  emg_buffer : list float;
  write_index : Z;
  sample_count : Z
}.

Section CircularBuffer.
Variables LEN N : Z.

Definition CircularBufferWrite (sample : float) (b : sample_buffer) : sample_buffer :=
  {| emg_buffer := <[Z.to_nat (write_index b) := sample]> (emg_buffer b);
     write_index := u16 (Z.rem (write_index b + 1) LEN);
     sample_count :=
       if sample_count b <? LEN then u16 (sample_count b + 1)
       else sample_count b |}.

(** The destination array is passed in and returned: on the early return
    it is handed back as it was. *)
Definition CircularBufferReadWindow (b : sample_buffer) (window : list float) : list float :=
  if sample_count b <? N then window
  else
    let start := u16 (Z.rem (write_index b - N + LEN) LEN) in
    (fun i => aget (emg_buffer b) (Z.rem (start + i) LEN)) <$> seqZ 0 N.

(** The statics at start-up: a zeroed array, both counters at zero. *)
Definition buffer_init : sample_buffer :=
  {| emg_buffer := replicate (Z.to_nat LEN) f32_zero;
     write_index := 0;
     sample_count := 0 |}.

Definition write_all (samples : list float) (b : sample_buffer) : sample_buffer :=
  fold_left (fun b x => CircularBufferWrite x b) samples b.

(** The array has its declared length and both counters are in range. *)
Definition buffer_wf (b : sample_buffer) : Prop :=
  length (emg_buffer b) = Z.to_nat LEN /\
  0 <= write_index b < LEN /\
  0 <= sample_count b <= LEN.

(** [b] is what [b0] has become once the samples [ws] were written to it:
    the cursor has advanced by their number, the count has grown up to
    the capacity, and each of the last [LEN] samples sits in the slot the
    cursor pointed to when it was written. *)
Definition tracks (b0 : sample_buffer) (ws : list float) (b : sample_buffer) : Prop :=
  buffer_wf b /\
  write_index b = (write_index b0 + Z.of_nat (length ws)) mod LEN /\
  sample_count b = Z.min (sample_count b0 + Z.of_nat (length ws)) LEN /\
  forall k : nat,
    (k < length ws)%nat -> Z.of_nat (length ws) - Z.of_nat k <= LEN ->
    emg_buffer b !! Z.to_nat ((write_index b0 + Z.of_nat k) mod LEN) = ws !! k.

End CircularBuffer.

(** ** Spectral features *)

Definition CalcRMS (data : list float) (len : Z) : float :=
  let sum :=
    fold_left (fun sum i => f32_add sum (f32_mul (aget data i) (aget data i)))
              (seqZ 0 len) f32_zero in
  f32_sqrt (f32_div sum (f32_of_Z len)).

Section Features.
Context {F : Type} `{Arith F}.

(** The loop of [CalcMeanFreq]: [num] and [den] after the indices [idx]. *)
Definition mean_loop (fft_mag freqs : list F) (idx : list Z) (acc : F * F) : F * F :=
  fold_left
    (fun '(num, den) i =>
       (a_add num (a_mul (aget freqs i) (aget fft_mag i)),
        a_add den (aget fft_mag i)))
    idx acc.

Definition CalcMeanFreq (fft_mag freqs : list F) (len : Z) : F :=
  let '(num, den) := mean_loop fft_mag freqs (seqZ 0 len) (a_zero, a_zero) in
  if a_gt den a_zero then a_div num den else a_zero.

(** The first loop of [CalcMedianFreq]. *)
Definition total_loop (fft_mag : list F) (idx : list Z) (total : F) : F :=
  fold_left (fun total i => a_add total (aget fft_mag i)) idx total.

(** The second loop: [Some] of the value returned from inside the loop,
    [None] when the loop runs to its end. *)
Fixpoint median_scan (fft_mag freqs : list F) (half accum : F) (idx : list Z) : option F :=
  match idx with
  | [] => None
  | i :: idx' =>
      let accum' := a_add accum (aget fft_mag i) in
      if a_ge accum' half then Some (aget freqs i)
      else median_scan fft_mag freqs half accum' idx'
  end.

Definition CalcMedianFreq (fft_mag freqs : list F) (len : Z) : F :=
  let total := total_loop fft_mag (seqZ 0 len) a_zero in
  let half := a_div total a_two in
  match median_scan fft_mag freqs half a_zero (seqZ 0 len) with
  | Some fr => fr
  | None => aget freqs (len - 1)
  end.

(** The sum of a sequence of terms, added from the left starting at
    zero: what [sum(...)] means once every addition rounds. *)
Definition sum_list (xs : list F) : F := fold_left a_add xs a_zero.

(** [sum(mag[i])] and [sum(freqs[i] * mag[i])] over the first [len] bins. *)
Definition magnitude_sum (fft_mag : list F) (len : Z) : F :=
  sum_list (aget fft_mag <$> seqZ 0 len).

Definition weighted_sum (fft_mag freqs : list F) (len : Z) : F :=
  sum_list ((fun i => a_mul (aget freqs i) (aget fft_mag i)) <$> seqZ 0 len).

(** [k * mag], element by element. *)
Definition scale (k : F) (fft_mag : list F) : list F := a_mul k <$> fft_mag.

End Features.

(** ** What the firmware sends

    One constructor per format string of the source, with the values
    that fill it; the textual layout is left to the receiving side. *)

Inductive message : Type :=
| MsgSpectrum (fi raw filt : float)        (* "*HX%2.2fY%2.2f,X%2.2fY%2.2f*" *)
| MsgMetrics (fmean fmed rms : float)      (* "*Tfmean: ..., fmed:..., RMS:..." *)
| MsgVentana (n : Z)                       (* "TVentana numero %d" *)
| MsgFrefStar (v : float)                  (* "*Tf_ref establecida: %.2f Hz*" *)
| MsgDrop (d : float)                      (* "*T Drop: %.2f" *)
| MsgCaidaStar (d100 t100 : float)         (* "*TCaida detectada (...)*" *)
| MsgFatigaStar (d100 : float)             (* "*TFATIGA DETECTADA: (...)*" *)
| MsgBase (n total : Z) (fmed : float)     (* "TBase %.0d/%.0d: f_med=%.2f" *)
| MsgFref (v : float)                      (* "Tf_ref establecida: %.2f Hz" *)
| MsgCaida (d100 t100 : float)             (* "TCaida detectada (...)" *)
| MsgFatiga (d100 : float)                 (* "TFATIGA DETECTADA (...)" *)
| MsgRef (v : float)                       (* "Frecuencia referencia: %.2f Hz" *)
| MsgRefSet (v : float)                    (* "Frecuencia de referencia establecida: ..." *)
| MsgText (s : string).

Inductive output : Type :=
| BleSendString (m : message)
| printf (m : message).

Definition newline : string := String "010"%char EmptyString.

(** ** The fatigue classifier of [EMGTask]

    The file-level variables of the fatigue analysis together with the two
    function-level statics of [EMGTask]. *)

Record fatigue_state : Type := {
  f_ref : float;
  window_counter : Z;
  fatigue_consecutive : Z;
  fatigue_detected : bool;
  f_ref_established : bool;
  f_ref_accum : float
}.

Definition fatigue_init : fatigue_state :=
  {| f_ref := f32_zero;
     window_counter := 0;
     fatigue_consecutive := 0;
     fatigue_detected := false;
     f_ref_established := false;
     f_ref_accum := f32_zero |}.

Definition set_f_ref (v : float) (s : fatigue_state) : fatigue_state :=
  {| f_ref := v;
     window_counter := window_counter s;
     fatigue_consecutive := fatigue_consecutive s;
     fatigue_detected := fatigue_detected s;
     f_ref_established := f_ref_established s;
     f_ref_accum := f_ref_accum s |}.

Definition set_window_counter (v : Z) (s : fatigue_state) : fatigue_state :=
  {| f_ref := f_ref s;
     window_counter := v;
     fatigue_consecutive := fatigue_consecutive s;
     fatigue_detected := fatigue_detected s;
     f_ref_established := f_ref_established s;
     f_ref_accum := f_ref_accum s |}.

Definition set_fatigue_consecutive (v : Z) (s : fatigue_state) : fatigue_state :=
  {| f_ref := f_ref s;
     window_counter := window_counter s;
     fatigue_consecutive := v;
     fatigue_detected := fatigue_detected s;
     f_ref_established := f_ref_established s;
     f_ref_accum := f_ref_accum s |}.

Definition set_fatigue_detected (v : bool) (s : fatigue_state) : fatigue_state :=
  {| f_ref := f_ref s;
     window_counter := window_counter s;
     fatigue_consecutive := fatigue_consecutive s;
     fatigue_detected := v;
     f_ref_established := f_ref_established s;
     f_ref_accum := f_ref_accum s |}.

Definition set_f_ref_established (v : bool) (s : fatigue_state) : fatigue_state :=
  {| f_ref := f_ref s;
     window_counter := window_counter s;
     fatigue_consecutive := fatigue_consecutive s;
     fatigue_detected := fatigue_detected s;
     f_ref_established := v;
     f_ref_accum := f_ref_accum s |}.

Definition set_f_ref_accum (v : float) (s : fatigue_state) : fatigue_state :=
  {| f_ref := f_ref s;
     window_counter := window_counter s;
     fatigue_consecutive := fatigue_consecutive s;
     fatigue_detected := fatigue_detected s;
     f_ref_established := f_ref_established s;
     f_ref_accum := v |}.

(** [(f_ref - f_median) / f_ref] *)
Definition drop_of (fref fmed : float) : float :=
  f32_div (f32_sub fref fmed) fref.

Definition percent (x : float) : float := f32_mul x (f32_of_Z 100).

(** [window_counter++] (line 231). *)
Definition count_window (s : fatigue_state) : fatigue_state :=
  set_window_counter (wrap_int (window_counter s + 1)) s.

(** Lines 259-290: the reference frequency accumulated in [f_ref] itself,
    then the comparison with the threshold.  [msg_ble] is the task's
    message buffer: line 290 sends once more whatever was formatted
    last. *)
Definition first_block (fmed : float) (s : fatigue_state) : fatigue_state * list output :=
  if window_counter s <=? BASELINE_WINDOWS then
    let s := set_f_ref (f32_add (f_ref s) fmed) s in
    if window_counter s =? BASELINE_WINDOWS then
      let s := set_f_ref (f32_div (f_ref s) (f32_of_Z BASELINE_WINDOWS)) s in
      (s, [printf (MsgRef (f_ref s)); BleSendString (MsgFrefStar (f_ref s))])
    else (s, [])
  else if f32_gt (f_ref s) f32_zero then
    let drop := drop_of (f_ref s) fmed in
    let msg_ble := MsgDrop drop in
    let out := [BleSendString msg_ble] in
    let '(s, msg_ble, out) :=
      if f32_gt drop FATIGUE_THRESHOLD then
        let s := set_fatigue_consecutive (wrap_int (fatigue_consecutive s + 1)) s in
        let '(msg_ble, out) :=
          if negb (fatigue_detected s) then
            let m := MsgCaidaStar (percent drop) (percent FATIGUE_THRESHOLD) in
            (m, out ++ [BleSendString m])
          else (msg_ble, out) in
        if (CONSECUTIVE_WINDOWS <=? fatigue_consecutive s) && negb (fatigue_detected s) then
          let m := MsgFatigaStar (percent drop) in
          (set_fatigue_detected true s, m, out ++ [BleSendString m])
        else (s, msg_ble, out)
      else (s, msg_ble, out) in
    (s, out ++ [BleSendString msg_ble])
  else (s, []).

(** Lines 293-335: the block gated by [f_ref_established]. *)
Definition second_block (fmed : float) (s : fatigue_state) : fatigue_state * list output :=
  if negb (f_ref_established s) then
    let '(s, out) :=
      if window_counter s <=? BASELINE_WINDOWS then
        (set_f_ref_accum (f32_add (f_ref_accum s) fmed) s,
         [BleSendString (MsgBase (window_counter s) BASELINE_WINDOWS fmed)])
      else (s, []) in
    if window_counter s =? BASELINE_WINDOWS then
      let s := set_f_ref (f32_div (f_ref_accum s) (f32_of_Z BASELINE_WINDOWS)) s in
      let s := set_f_ref_established true s in
      (s, out ++ [BleSendString (MsgFref (f_ref s)); printf (MsgRefSet (f_ref s))])
    else (s, out)
  else if f32_gt (f_ref s) f32_zero then
    let drop := drop_of (f_ref s) fmed in
    let out := [BleSendString (MsgDrop drop)] in
    if f32_gt drop FATIGUE_THRESHOLD then
      let s := set_fatigue_consecutive (wrap_int (fatigue_consecutive s + 1)) s in
      let out :=
        if negb (fatigue_detected s) then
          out ++ [BleSendString (MsgCaida (percent drop) (percent FATIGUE_THRESHOLD))]
        else out in
      if (CONSECUTIVE_WINDOWS <=? fatigue_consecutive s) && negb (fatigue_detected s) then
        (set_fatigue_detected true s, out ++ [BleSendString (MsgFatiga (percent drop))])
      else (s, out)
    else (set_fatigue_consecutive 0 s, out)
  else (s, []).

(** Lines 259-335 with the braces as they stand: the statement of line
    293 is the last statement of the block of line 269. *)
Definition nested_blocks (fmed : float) (s : fatigue_state) : fatigue_state * list output :=
  if window_counter s <=? BASELINE_WINDOWS then
    let s := set_f_ref (f32_add (f_ref s) fmed) s in
    if window_counter s =? BASELINE_WINDOWS then
      let s := set_f_ref (f32_div (f_ref s) (f32_of_Z BASELINE_WINDOWS)) s in
      (s, [printf (MsgRef (f_ref s)); BleSendString (MsgFrefStar (f_ref s))])
    else (s, [])
  else if f32_gt (f_ref s) f32_zero then
    let drop := drop_of (f_ref s) fmed in
    let msg_ble := MsgDrop drop in
    let out := [BleSendString msg_ble] in
    let '(s, msg_ble, out) :=
      if f32_gt drop FATIGUE_THRESHOLD then
        let s := set_fatigue_consecutive (wrap_int (fatigue_consecutive s + 1)) s in
        let '(msg_ble, out) :=
          if negb (fatigue_detected s) then
            let m := MsgCaidaStar (percent drop) (percent FATIGUE_THRESHOLD) in
            (m, out ++ [BleSendString m])
          else (msg_ble, out) in
        if (CONSECUTIVE_WINDOWS <=? fatigue_consecutive s) && negb (fatigue_detected s) then
          let m := MsgFatigaStar (percent drop) in
          (set_fatigue_detected true s, m, out ++ [BleSendString m])
        else (s, msg_ble, out)
      else (s, msg_ble, out) in
    let out := out ++ [BleSendString msg_ble] in
    let '(s, out2) := second_block fmed s in
    (s, out ++ out2)
  else (s, []).

(** The source does not close the block of line 269.  [Braces] takes the
    braces as they stand, which puts lines 293-335 inside that block;
    [Layout] ends the block where the indentation ends it, after line
    290. *)
Inductive reading : Type :=
| Braces
| Layout.
Existing Class reading.

Section Classifier.
Context {r : reading}.

(** Lines 259-335 under the reading [r]. *)
Definition classify (fmed : float) (s : fatigue_state) : fatigue_state * list output :=
  match r with
  | Braces => nested_blocks fmed s
  | Layout =>
      let '(s1, out1) := first_block fmed s in
      let '(s2, out2) := second_block fmed s1 in
      (s2, out1 ++ out2)
  end.

(** One classifier transition: the window is counted, then classified
    from its median frequency. *)
Definition fatigue_update (fmed : float) (s : fatigue_state) : fatigue_state :=
  fst (classify fmed (count_window s)).

(** The classifier after the windows whose median frequencies are [fmeds],
    oldest first. *)
Definition fatigue_run (fmeds : list float) (s : fatigue_state) : fatigue_state :=
  fold_left (fun s fmed => fatigue_update fmed s) fmeds s.

End Classifier.

(** ** The external kernels

    [HiPassFilter] and [LowPassFilter] keep their own state between calls
    ([FS]); [FFTMagnitude] and [FFTFrequency] fill an output array. *)

Record kernels (FS : Type) : Type := {
  HiPassFilter : FS -> list float -> Z -> FS * list float;
  LowPassFilter : FS -> list float -> Z -> FS * list float;
  FFTMagnitude : list float -> Z -> list float;
  FFTFrequency : Z -> Z -> list float
}.
Arguments HiPassFilter {FS}.
Arguments LowPassFilter {FS}.
Arguments FFTMagnitude {FS}.
Arguments FFTFrequency {FS}.

(** ** The firmware state *)

Record firmware (FS : Type) : Type := {
  buffer : sample_buffer;
  emg_window : list float;
  emg_filt : list float;
  emg_fft : list float;
  emg_filt_fft : list float;
  f : list float;
  f_mean : float;
  f_median : float;
  rms_value : float;
  fatigue : fatigue_state;
  filters : FS;
  (** the notification value of [emg_task_handle] *)
  notified : Z;
  (** everything sent so far, oldest first *)
  sent : list output
}.
Arguments buffer {FS}.
Arguments emg_window {FS}.
Arguments emg_filt {FS}.
Arguments emg_fft {FS}.
Arguments emg_filt_fft {FS}.
Arguments f {FS}.
Arguments f_mean {FS}.
Arguments f_median {FS}.
Arguments rms_value {FS}.
Arguments fatigue {FS}.
Arguments filters {FS}.
Arguments notified {FS}.
Arguments sent {FS}.

Section Firmware.
Context {FS : Type} (K : kernels FS) {r : reading}.

Definition firmware_init (fs : FS) : firmware FS :=
  {| buffer := buffer_init EMG_BUFFER_LEN;
     emg_window := replicate (Z.to_nat BUFFER_SIZE) f32_zero;
     emg_filt := replicate (Z.to_nat BUFFER_SIZE) f32_zero;
     emg_fft := replicate (Z.to_nat (BUFFER_SIZE / 2)) f32_zero;
     emg_filt_fft := replicate (Z.to_nat (BUFFER_SIZE / 2)) f32_zero;
     f := replicate (Z.to_nat (BUFFER_SIZE / 2)) f32_zero;
     f_mean := f32_zero;
     f_median := f32_zero;
     rms_value := f32_zero;
     fatigue := fatigue_init;
     filters := fs;
     notified := 0;
     sent := [] |}.

(** One pass through the body of the [while(true)] of [EMGTask], from the
    return of [ulTaskNotifyTake] (which clears the notification value) to
    the end of the classifier. *)
Definition EMGTask_cycle (s : firmware FS) : firmware FS :=
  let window := CircularBufferReadWindow EMG_BUFFER_LEN BUFFER_SIZE (buffer s) (emg_window s) in
  let '(fs1, filt0) := HiPassFilter K (filters s) window BUFFER_SIZE in
  let '(fs2, filt) := LowPassFilter K fs1 filt0 BUFFER_SIZE in
  let fft := FFTMagnitude K window BUFFER_SIZE in
  let filt_fft := FFTMagnitude K filt BUFFER_SIZE in
  let fax := FFTFrequency K SAMPLE_FREQ BUFFER_SIZE in
  let fat := count_window (fatigue s) in
  let out_fft :=
    (fun i => BleSendString (MsgSpectrum (aget fax i) (aget fft i) (aget filt_fft i)))
      <$> seqZ 0 (BUFFER_SIZE / 2) in
  let rms := CalcRMS filt BUFFER_SIZE in
  let fmean := CalcMeanFreq filt_fft fax (BUFFER_SIZE / 2) in
  let fmed := CalcMedianFreq filt_fft fax (BUFFER_SIZE / 2) in
  let out_metrics :=
    [BleSendString (MsgMetrics fmean fmed rms);
     BleSendString (MsgVentana (window_counter fat))] in
  let '(fat, out_cls) := classify fmed fat in
  {| buffer := buffer s;
     emg_window := window;
     emg_filt := filt;
     emg_fft := fft;
     emg_filt_fft := filt_fft;
     f := fax;
     f_mean := fmean;
     f_median := fmed;
     rms_value := rms;
     fatigue := fat;
     filters := fs2;
     notified := 0;
     sent := sent s ++ out_fft ++ out_metrics ++ out_cls |}.

(** The task blocks in [ulTaskNotifyTake] until it has been notified. *)
Definition EMGTask (s : firmware FS) : option (firmware FS) :=
  if notified s =? 0 then None else Some (EMGTask_cycle s).

Definition with_buffer (b : sample_buffer) (s : firmware FS) : firmware FS :=
  {| buffer := b;
     emg_window := emg_window s;
     emg_filt := emg_filt s;
     emg_fft := emg_fft s;
     emg_filt_fft := emg_filt_fft s;
     f := f s;
     f_mean := f_mean s;
     f_median := f_median s;
     rms_value := rms_value s;
     fatigue := fatigue s;
     filters := filters s;
     notified := notified s;
     sent := sent s |}.

Definition xTaskNotifyGive (s : firmware FS) : firmware FS :=
  {| buffer := buffer s;
     emg_window := emg_window s;
     emg_filt := emg_filt s;
     emg_fft := emg_fft s;
     emg_filt_fft := emg_filt_fft s;
     f := f s;
     f_mean := f_mean s;
     f_median := f_median s;
     rms_value := rms_value s;
     fatigue := fatigue s;
     filters := filters s;
     notified := (notified s + 1) mod 2 ^ 32;
     sent := sent s |}.

Definition send (out : list output) (s : firmware FS) : firmware FS :=
  {| buffer := buffer s;
     emg_window := emg_window s;
     emg_filt := emg_filt s;
     emg_fft := emg_fft s;
     emg_filt_fft := emg_filt_fft s;
     f := f s;
     f_mean := f_mean s;
     f_median := f_median s;
     rms_value := rms_value s;
     fatigue := fatigue s;
     filters := filters s;
     notified := notified s;
     sent := sent s ++ out |}.

(** The BLE receive callback.  It reads [data[0]] whatever [length] is;
    on an empty message that read is outside the data and there is no
    result. *)
Definition read_data (data : list Byte.byte) (length : Z) (s : firmware FS) : option (firmware FS) :=
  match data with
  | [] => None
  | d0 :: _ =>
      if Byte.eqb d0 "R"%byte then Some (xTaskNotifyGive s)
      else if Byte.eqb d0 "B"%byte then
        Some (send [BleSendString (MsgText "*HC*");
                    BleSendString (MsgText (String.append "*TLimpieza completada*" newline))] s)
      else Some s
  end.

(** The sampling interrupt: one conversion of the ADC ([uint16_t]) goes
    into the circular buffer. *)
Definition EMG_TimerISR (adc_val : Z) (s : firmware FS) : firmware FS :=
  with_buffer (CircularBufferWrite EMG_BUFFER_LEN (f32_of_Z (u16 adc_val)) (buffer s)) s.

(** What can happen to the firmware: a timer tick with the converted
    value, a BLE message, the task taking its notification.  Each is one
    step; a cycle of the task is not interleaved with the interrupt, so
    a tick that arrives while the task copies the window is not
    modelled. *)
Inductive event : Type :=
| Tick (adc_val : Z)
| Received (data : list Byte.byte)
| Wake.

Definition step (e : event) (s : firmware FS) : option (firmware FS) :=
  match e with
  | Tick adc_val => Some (EMG_TimerISR adc_val s)
  | Received data => read_data data (Z.of_nat (length data)) s
  | Wake => EMGTask s
  end.

Fixpoint run (es : list event) (s : firmware FS) : option (firmware FS) :=
  match es with
  | [] => Some s
  | e :: es' =>
      match step e s with
      | Some s' => run es' s'
      | None => None
      end
  end.

End Firmware.

(** ** Sessions and sample values used in the statements *)

(** The classifier states a session can be in: those reached from the
    initial values of the statics by some sequence of windows. *)
Definition in_session {r : reading} (s : fatigue_state) : Prop :=
  exists fmeds : list float, fatigue_run fmeds fatigue_init = s.

(** Whether a window reaches line 293: always when the two blocks follow
    one another, only through the branch of line 269 when the second is
    nested in it. *)
Definition reaches_second_block {r : reading} (s : fatigue_state) : bool :=
  match r with
  | Braces => negb (window_counter s <=? BASELINE_WINDOWS) && f32_gt (f_ref s) f32_zero
  | Layout => true
  end.

(** Under [Layout]: until the fifth window the gate of the second block
    is closed; from then on it is open for the rest of the session. *)
Definition baseline_inv (s : fatigue_state) : Prop :=
  f_ref_established s = true \/ 0 <= window_counter s < BASELINE_WINDOWS.

Definition hz (z : Z) : float := f32_of_Z z.

(** Kernels to run the model on: filters that hand their input through,
    a spectrum that is the first half of its input, the frequency axis
    [0, 1, 2, ...].  They stand for the absent libraries only where a
    statement is evaluated on concrete values. *)
Definition loopback_kernels : kernels unit :=
  {| HiPassFilter := fun fs x _ => (fs, x);
     LowPassFilter := fun fs x _ => (fs, x);
     FFTMagnitude := fun x n => take (Z.to_nat (n / 2)) x;
     FFTFrequency := fun _ n => f32_of_Z <$> seqZ 0 (n / 2) |}.

(** ** Notions used by the further properties *)

(** The samples a sequence of events puts into the circular buffer: one
    per timer tick, in order. *)
Definition samples_of (es : list event) : list float :=
  es ≫= (fun e => match e with Tick adc_val => [f32_of_Z (u16 adc_val)] | _ => [] end).

Definition is_wake (e : event) : bool :=
  match e with Wake => true | _ => false end.

(** The sign bit is clear: the number is NaN, or it is [+0], positive or
    [+infinity]. *)
Definition sign_clear (x : float) : bool :=
  match x with
  | S754_zero s | S754_infinity s | S754_finite s _ _ => negb s
  | S754_nan => true
  end.

Definition is_nan32 (x : float) : bool :=
  match x with S754_nan => true | _ => false end.

(** The running sum of [CalcMedianFreq] after the first [k] bins. *)
Definition prefix_sum {F : Type} `{Arith F} (fft_mag : list F) (k : Z) : F :=
  total_loop fft_mag (seqZ 0 k) a_zero.

(** The state a sequence of events leaves the firmware in, run on the
    loopback kernels from start-up (start-up itself when the sequence
    cannot run). *)
Definition state_after {r : reading} (es : list event) : firmware unit :=
  from_option id (firmware_init tt) (run loopback_kernels es (firmware_init tt)).

(** ** Numbers with room in the exponent *)

(** [x] with its exponent moved by [n]: [2^n * x] when no rounding,
    overflow or underflow is involved. *)
Definition scale2 (n : Z) (x : float) : float :=
  match x with
  | S754_finite s m e => S754_finite s m (e + n)
  | _ => x
  end.

(** The binary32 number [2^n], for [-126 <= n <= 127]. *)
Definition pow2 (n : Z) : float := S754_finite false 8388608 (n - 23).

Definition is_finite32 (x : float) : bool :=
  match x with S754_finite _ _ _ => true | _ => false end.

Definition finite_room (n : Z) (x : float) : Prop :=
  match x with
  | S754_finite _ _ e => -147 + Z.abs n <= e <= 104 - Z.abs n
  | _ => False
  end.

(** A normal number (24 significant bits) that is still normal, with two
    binades to spare, [|n|] binades down, and finite [|n|] binades up:
    its magnitude lies in [[2^(-124+|n|), 2^(128-|n|))]. *)
Definition normal32 (n : Z) (x : float) : bool :=
  match x with
  | S754_finite _ m e =>
      (Z.pos (digits2_pos m) =? prec) && (-147 + Z.abs n <=? e) && (e <=? 104 - Z.abs n)
  | _ => false
  end.

(** Zero, an infinity, NaN, or a number with room. *)
Definition has_room (n : Z) (x : float) : bool :=
  negb (is_finite32 x) || normal32 n x.

(** The sum (the product) of [x] and [y] has room, when both are finite
    and not zero. *)
Definition sum_has_room (n : Z) (x y : float) : bool :=
  negb (is_finite32 x && is_finite32 y) || normal32 n (f32_add x y).

Definition product_has_room (n : Z) (x y : float) : bool :=
  negb (is_finite32 x && is_finite32 y) || normal32 n (f32_mul x y).

(** Every magnitude and every running sum of the loops over
    [fft_mag[i]] has room. *)
Fixpoint sums_have_room (n : Z) (fft_mag : list float) (idx : list Z) (accum : float) : bool :=
  match idx with
  | [] => true
  | i :: idx' =>
      has_room n (aget fft_mag i) && sum_has_room n accum (aget fft_mag i)
      && sums_have_room n fft_mag idx' (f32_add accum (aget fft_mag i))
  end.

(** Every product [freqs[i] * fft_mag[i]] and every running sum of them
    has room. *)
Fixpoint weighted_sums_have_room
  (n : Z) (fft_mag freqs : list float) (idx : list Z) (num : float) : bool :=
  match idx with
  | [] => true
  | i :: idx' =>
      let p := f32_mul (aget freqs i) (aget fft_mag i) in
      product_has_room n (aget freqs i) (aget fft_mag i) && sum_has_room n num p
      && weighted_sums_have_room n fft_mag freqs idx' (f32_add num p)
  end.

(** Case analysis on every test of a classifier block. *)
Ltac classifier_cases :=
  repeat match goal with
         | |- context [if ?c then _ else _] => destruct c eqn:?; cbn
         end.

(** * Properties *)

(** ** Machine arithmetic *)

Lemma u16_small (z : Z) : 0 <= z < 2 ^ 16 -> u16 z = z.
Proof. intros Hz. unfold u16. apply Z.mod_small. exact Hz. Qed.

Lemma wrap_int_small (z : Z) : - 2 ^ 31 <= z < 2 ^ 31 -> wrap_int z = z.
Proof. intros Hz. unfold wrap_int. rewrite Z.mod_small; lia. Qed.

Lemma mod_add_ne (a d m : Z) : 0 < d < m -> (a + d) mod m <> a mod m.
Proof.
  intros Hd Heq.
  assert (Hz : (a + d - a) mod m = 0).
  { rewrite Zminus_mod, Heq, Z.sub_diag. apply Z.mod_0_l. lia. }
  replace (a + d - a) with d in Hz by lia.
  rewrite Z.mod_small in Hz; lia.
Qed.

Lemma seqZ_S (m n : Z) : 0 < n -> seqZ m n = m :: seqZ (m + 1) (n - 1).
Proof. intros Hn. rewrite (seqZ_cons m n) by lia. reflexivity. Qed.

(** ** The circular buffer *)

Section BufferFacts.
Variables LEN N : Z.
Hypothesis LEN_pos : 0 < LEN.
Hypothesis LEN_u16 : LEN < 2 ^ 16.

Lemma CircularBufferWrite_fields (x : float) (b : sample_buffer) :
  buffer_wf LEN b ->
  emg_buffer (CircularBufferWrite LEN x b)
    = <[Z.to_nat (write_index b) := x]> (emg_buffer b) /\
  write_index (CircularBufferWrite LEN x b) = (write_index b + 1) mod LEN /\
  sample_count (CircularBufferWrite LEN x b) = Z.min (sample_count b + 1) LEN.
Proof.
  intros (Hlen & Hwi & Hsc). unfold CircularBufferWrite; cbn.
  split; [reflexivity|]. split.
  - rewrite Z.rem_mod_nonneg by lia.
    apply u16_small.
    pose proof (Z.mod_pos_bound (write_index b + 1) LEN LEN_pos). lia.
  - destruct (Z.ltb_spec (sample_count b) LEN).
    + rewrite u16_small by lia. lia.
    + lia.
Qed.

Lemma CircularBufferWrite_wf (x : float) (b : sample_buffer) :
  buffer_wf LEN b -> buffer_wf LEN (CircularBufferWrite LEN x b).
Proof.
  intros Hwf. destruct (CircularBufferWrite_fields x b Hwf) as (Hb & Hw & Hs).
  destruct Hwf as (Hlen & Hwi & Hsc).
  unfold buffer_wf. rewrite Hb, Hw, Hs, length_insert.
  pose proof (Z.mod_pos_bound (write_index b + 1) LEN LEN_pos). lia.
Qed.

Lemma write_all_snoc (ws : list float) (x : float) (b : sample_buffer) :
  write_all LEN (ws ++ [x]) b = CircularBufferWrite LEN x (write_all LEN ws b).
Proof. unfold write_all. rewrite fold_left_app. reflexivity. Qed.

(** The invariant of the buffer, by induction on the writes from the
    most recent one backwards. *)
Lemma tracks_write_all (b0 : sample_buffer) (ws : list float) :
  buffer_wf LEN b0 -> tracks LEN b0 ws (write_all LEN ws b0).
Proof.
  intros Hwf0. induction ws as [|x ws IH] using rev_ind.
  - unfold tracks; cbn. pose proof Hwf0 as (Hlen & Hwi & Hsc).
    split; [exact Hwf0|]. split; [|split].
    + rewrite Z.add_0_r, Z.mod_small; lia.
    + lia.
    + intros k Hk. lia.
  - destruct IH as (Hwf & Hwi & Hsc & Hbuf).
    rewrite write_all_snoc.
    destruct (CircularBufferWrite_fields x _ Hwf) as (Eb & Ew & Es).
    split; [apply CircularBufferWrite_wf; exact Hwf|].
    rewrite Eb, Ew, Es, Hwi, Hsc, length_app; cbn [length].
    split; [|split].
    + rewrite Zplus_mod_idemp_l. f_equal. lia.
    + lia.
    + intros k Hk Hspan.
      destruct (decide (k = length ws)) as [->|Hne].
      * rewrite lookup_app_r by lia. rewrite Nat.sub_diag. cbn.
        apply list_lookup_insert_eq.
        destruct Hwf as (Hlen & Hb & _). rewrite Hlen.
        pose proof (Z.mod_pos_bound (write_index b0 + Z.of_nat (length ws)) LEN LEN_pos).
        lia.
      * rewrite lookup_app_l by lia.
        rewrite list_lookup_insert_ne.
        -- apply Hbuf; lia.
        -- intros Heq. apply Z2Nat.inj in Heq.
           ++ revert Heq.
              replace (write_index b0 + Z.of_nat (length ws))
                with ((write_index b0 + Z.of_nat k)
                      + (Z.of_nat (length ws) - Z.of_nat k)) by lia.
              apply mod_add_ne. lia.
           ++ apply Z.mod_pos_bound; lia.
           ++ apply Z.mod_pos_bound; lia.
Qed.

Hypothesis N_le_LEN : N <= LEN.

(** The slot read for position [i] of the window, once [h] samples have
    been written from cursor [wi]. *)
Lemma read_index (wi h i : Z) :
  0 <= i < N ->
  Z.rem (u16 (Z.rem ((wi + h) mod LEN - N + LEN) LEN) + i) LEN
  = (wi + (h - N + i)) mod LEN.
Proof.
  intros Hi.
  pose proof (Z.mod_pos_bound (wi + h) LEN LEN_pos) as Hm.
  rewrite (Z.rem_mod_nonneg ((wi + h) mod LEN - N + LEN)) by lia.
  pose proof (Z.mod_pos_bound ((wi + h) mod LEN - N + LEN) LEN LEN_pos) as Hs.
  rewrite u16_small by lia.
  rewrite Z.rem_mod_nonneg by lia.
  rewrite Zplus_mod_idemp_l.
  replace ((wi + h) mod LEN - N + LEN + i)
    with ((wi + h) mod LEN + (i - N + LEN)) by lia.
  rewrite Zplus_mod_idemp_l.
  replace (wi + h + (i - N + LEN)) with (wi + (h - N + i) + 1 * LEN) by lia.
  apply Z.mod_add. lia.
Qed.

Lemma read_after_writes (b0 : sample_buffer) (ws window : list float) :
  buffer_wf LEN b0 ->
  N <= Z.of_nat (length ws) ->
  CircularBufferReadWindow LEN N (write_all LEN ws b0) window
  = drop (length ws - Z.to_nat N) ws.
Proof.
  intros Hwf0 Hn.
  destruct (tracks_write_all b0 ws Hwf0) as (Hwf & Hwi & Hsc & Hbuf).
  destruct Hwf0 as (_ & Hwi0 & Hsc0).
  unfold CircularBufferReadWindow.
  destruct (Z.ltb_spec (sample_count (write_all LEN ws b0)) N) as [Hlt|_]; [lia|].
  apply list_eq. intros i.
  rewrite list_lookup_fmap, lookup_drop.
  destruct (decide (Z.of_nat i < N)) as [Hi|Hi].
  - rewrite lookup_seqZ_lt by lia. cbn.
    rewrite Hwi, read_index by lia.
    set (k := (length ws - Z.to_nat N + i)%nat).
    replace (Z.of_nat (length ws) - N + (0 + Z.of_nat i)) with (Z.of_nat k) by lia.
    specialize (Hbuf k ltac:(lia) ltac:(lia)).
    unfold aget.
    pose proof (Z.mod_pos_bound (write_index b0 + Z.of_nat k) LEN LEN_pos) as Hm.
    destruct (Z.ltb_spec ((write_index b0 + Z.of_nat k) mod LEN) 0) as [?|_]; [lia|].
    rewrite <- Hbuf.
    destruct (emg_buffer (write_all LEN ws b0)
                !! Z.to_nat ((write_index b0 + Z.of_nat k) mod LEN)) as [y|] eqn:E.
    + f_equal. apply nth_lookup_Some with (d := a_zero) in E. exact E.
    + exfalso. apply lookup_ge_None in E. destruct Hwf as (Hlen & _). lia.
  - rewrite lookup_seqZ_ge by lia. cbn. symmetry.
    apply lookup_ge_None. lia.
Qed.

(** While fewer than [N] samples are held, the window is handed back
    untouched. *)
Lemma read_underrun (b : sample_buffer) (window : list float) :
  sample_count b < N -> CircularBufferReadWindow LEN N b window = window.
Proof.
  intros Hlt. unfold CircularBufferReadWindow.
  destruct (Z.ltb_spec (sample_count b) N); [reflexivity|lia].
Qed.

End BufferFacts.

Lemma buffer_init_wf (LEN : Z) : 0 < LEN -> buffer_wf LEN (buffer_init LEN).
Proof.
  intros HL. unfold buffer_wf, buffer_init; cbn.
  rewrite length_replicate. lia.
Qed.

(** C7.  Whatever was written to the circular buffer, in whatever state
    it was, once at least [N] samples have gone in, the window copy is
    exactly the last [N] of them, oldest first; the position of the write
    cursor, wrapped or not, plays no part.  This holds for every capacity
    that fits the 16-bit cursor and every window length up to the
    capacity. *)
Theorem window_is_last_samples
  (LEN N : Z) (b0 : sample_buffer) (ws window : list float) :
  0 < LEN < 2 ^ 16 ->
  N <= LEN ->
  buffer_wf LEN b0 ->
  N <= Z.of_nat (length ws) ->
  CircularBufferReadWindow LEN N (write_all LEN ws b0) window
  = drop (length ws - Z.to_nat N) ws.
Proof.
  intros [HL HU] HN Hwf Hws.
  apply read_after_writes; assumption.
Qed.

Lemma window_is_last_samples_witness :
  CircularBufferReadWindow 4 3
    (write_all 4 (hz <$> [1; 2; 3; 4; 5; 6]) (buffer_init 4)) []
  = hz <$> [4; 5; 6].
Proof.
  change (hz <$> [4; 5; 6])
    with (drop (length (hz <$> [1; 2; 3; 4; 5; 6]) - Z.to_nat 3)
               (hz <$> [1; 2; 3; 4; 5; 6])).
  apply (window_is_last_samples 4 3 (buffer_init 4) (hz <$> [1; 2; 3; 4; 5; 6]) []).
  - lia.
  - lia.
  - apply buffer_init_wf. lia.
  - cbn. lia.
Defined.

(** The firmware's own sizes: 512 slots, windows of 512. *)
Lemma firmware_window_is_last_samples (b0 : sample_buffer) (ws window : list float) :
  buffer_wf EMG_BUFFER_LEN b0 ->
  BUFFER_SIZE <= Z.of_nat (length ws) ->
  CircularBufferReadWindow EMG_BUFFER_LEN BUFFER_SIZE
    (write_all EMG_BUFFER_LEN ws b0) window
  = drop (length ws - Z.to_nat BUFFER_SIZE) ws.
Proof.
  intros Hwf Hws. apply read_after_writes; try assumption.
  - reflexivity.
  - reflexivity.
  - unfold BUFFER_SIZE, EMG_BUFFER_LEN. lia.
Qed.

(** ** binary32 comparisons *)

Lemma SFcompare_antisym (x y : float) :
  SFcompare y x = option_map CompOpp (SFcompare x y).
Proof.
  destruct x as [s1|s1| |s1 m1 e1], y as [s2|s2| |s2 m2 e2]; cbn;
    try destruct s1; try destruct s2; try reflexivity.
  - rewrite (Z.compare_antisym e2 e1). destruct (e2 ?= e1); cbn; try reflexivity.
    rewrite (Pos.compare_cont_antisym m1 m2 Eq). reflexivity.
  - rewrite (Z.compare_antisym e2 e1). destruct (e2 ?= e1); cbn; try reflexivity.
    rewrite (Pos.compare_cont_antisym m1 m2 Eq). reflexivity.
Qed.

(** [x <= y] excludes [x > y]. *)
Lemma f32_le_not_gt (x y : float) : f32_le x y = true -> f32_gt x y = false.
Proof.
  unfold f32_le, f32_gt, SFleb, SFltb. rewrite (SFcompare_antisym x y).
  destruct (SFcompare x y) as [[| |]|]; cbn; congruence.
Qed.

(** Adding a zero of either sign to [+0] gives [+0]. *)
Lemma f32_add_zero (x : float) : is_zero32 x = true -> f32_add f32_zero x = f32_zero.
Proof. destruct x as [[|]|s| |s m e]; intros Hx; try discriminate Hx; reflexivity. Qed.

(** ** The loops of the frequency features *)

Section FeatureEquations.
Context {F : Type} `{Arith F}.

Lemma mean_loop_cons (mag freqs : list F) (i : Z) (idx : list Z) (num den : F) :
  mean_loop mag freqs (i :: idx) (num, den)
  = mean_loop mag freqs idx
      (a_add num (a_mul (aget freqs i) (aget mag i)), a_add den (aget mag i)).
Proof. reflexivity. Qed.

Lemma total_loop_cons (mag : list F) (i : Z) (idx : list Z) (total : F) :
  total_loop mag (i :: idx) total = total_loop mag idx (a_add total (aget mag i)).
Proof. reflexivity. Qed.

Lemma median_scan_cons (mag freqs : list F) (half accum : F) (i : Z) (idx : list Z) :
  median_scan mag freqs half accum (i :: idx)
  = if a_ge (a_add accum (aget mag i)) half then Some (aget freqs i)
    else median_scan mag freqs half (a_add accum (aget mag i)) idx.
Proof. reflexivity. Qed.

(** The two accumulators of [CalcMeanFreq] are the two sums, each added
    up in index order. *)
Lemma mean_loop_sums (mag freqs : list F) (idx : list Z) (num den : F) :
  mean_loop mag freqs idx (num, den)
  = (fold_left a_add ((fun i => a_mul (aget freqs i) (aget mag i)) <$> idx) num,
     fold_left a_add (aget mag <$> idx) den).
Proof.
  revert num den. induction idx as [|i idx IH]; intros num den; [reflexivity|].
  rewrite mean_loop_cons, IH. reflexivity.
Qed.

Lemma CalcMeanFreq_sums (mag freqs : list F) (len : Z) :
  CalcMeanFreq mag freqs len
  = if a_gt (magnitude_sum mag len) a_zero
    then a_div (weighted_sum mag freqs len) (magnitude_sum mag len)
    else a_zero.
Proof. unfold CalcMeanFreq. rewrite mean_loop_sums. reflexivity. Qed.

End FeatureEquations.

(** C10.  [CalcMeanFreq] always returns: with [num] the sum of
    [freqs[i] * fft_mag[i]] and [den] the sum of [fft_mag[i]] (each added
    up in index order, in binary32), the result is [num / den] when
    [den > 0], and [0.0] when [den <= 0] - more generally whenever
    [den > 0] does not hold, which also covers a NaN sum.  The quotient
    is formed in the first case only. *)
Theorem CalcMeanFreq_guarded (fft_mag freqs : list float) (len : Z) :
  let num := weighted_sum fft_mag freqs len in
  let den := magnitude_sum fft_mag len in
  (f32_gt den f32_zero = true ->
   CalcMeanFreq fft_mag freqs len = f32_div num den) /\
  (f32_le den f32_zero = true ->
   CalcMeanFreq fft_mag freqs len = f32_zero) /\
  (f32_gt den f32_zero = false ->
   CalcMeanFreq fft_mag freqs len = f32_zero).
Proof.
  intros num den. rewrite CalcMeanFreq_sums. fold den. fold num.
  change (a_gt den a_zero) with (f32_gt den f32_zero).
  split; [|split].
  - intros ->. reflexivity.
  - intros Hle. rewrite (f32_le_not_gt _ _ Hle). reflexivity.
  - intros ->. reflexivity.
Qed.

(** ** The median frequency of an empty spectrum *)

Lemma aget_all_zero (mag : list float) (i : Z) :
  Forall (fun m => is_zero32 m = true) mag -> is_zero32 (aget mag i) = true.
Proof.
  intros Hz. unfold aget. destruct (i <? 0); [reflexivity|].
  generalize (Z.to_nat i). intros n. revert n.
  induction Hz as [|m mag Hm _ IH]; intros [|n]; cbn; auto.
Qed.

Lemma total_loop_zero (mag : list float) (idx : list Z) :
  Forall (fun m => is_zero32 m = true) mag ->
  total_loop mag idx f32_zero = f32_zero.
Proof.
  intros Hz. induction idx as [|i idx IH]; [reflexivity|].
  rewrite total_loop_cons.
  change (a_add f32_zero (aget mag i)) with (f32_add f32_zero (aget mag i)).
  rewrite f32_add_zero by (apply aget_all_zero; exact Hz).
  exact IH.
Qed.

Lemma median_all_zero (mag freqs : list float) (len : Z) :
  0 < len ->
  Forall (fun m => is_zero32 m = true) mag ->
  CalcMedianFreq mag freqs len = aget freqs 0.
Proof.
  intros Hlen Hz. unfold CalcMedianFreq.
  change (@a_zero float arith_f32) with f32_zero.
  rewrite total_loop_zero by exact Hz.
  rewrite (seqZ_S 0 len Hlen), median_scan_cons.
  change (a_add f32_zero (aget mag 0)) with (f32_add f32_zero (aget mag 0)).
  rewrite f32_add_zero by (apply aget_all_zero; exact Hz).
  reflexivity.
Qed.

(** C3, as the code has it.  On a spectrum whose magnitudes are all zero
    (of either sign) [CalcMedianFreq] returns the first element of the
    frequency vector: the total is [+0], so is its half, and the running
    sum [+0] already satisfies [accum >= half] at index 0. *)
Theorem median_of_zero_spectrum (fft_mag freqs : list float) (len : Z) :
  0 < len ->
  Z.of_nat (length fft_mag) = len ->
  Z.of_nat (length freqs) = len ->
  Forall (fun m => is_zero32 m = true) fft_mag ->
  head freqs = Some (CalcMedianFreq fft_mag freqs len).
Proof.
  intros Hlen _ Hfreqs Hz.
  rewrite (median_all_zero fft_mag freqs len Hlen Hz).
  destruct freqs as [|fr freqs]; [cbn in Hfreqs; lia|reflexivity].
Qed.

Lemma median_of_zero_spectrum_witness :
  head [hz 10; hz 20; hz 30]
  = Some (CalcMedianFreq [f32_zero; S754_zero true; f32_zero] [hz 10; hz 20; hz 30] 3).
Proof.
  apply median_of_zero_spectrum.
  - lia.
  - reflexivity.
  - reflexivity.
  - repeat constructor.
Defined.

(** C3, as the specification has it, fails: two bins, both magnitudes
    zero, frequencies 1 and 2.  The result is 1, the first bin, where
    the last bin is 2. *)
Lemma median_of_zero_spectrum_not_last :
  let fft_mag := [f32_zero; f32_zero] in
  let freqs := [hz 1; hz 2] in
  CalcMedianFreq fft_mag freqs 2 = hz 1 /\
  last freqs = Some (hz 2) /\
  CalcMedianFreq fft_mag freqs 2 <> hz 2.
Proof.
  cbv zeta. split; [|split].
  - vm_compute. reflexivity.
  - reflexivity.
  - vm_compute. discriminate.
Qed.

(** ** Scaling the magnitudes *)

(** C8, as the specification has it, fails in the firmware's arithmetic.
    Magnitudes [2^24, 2^24, 2] at the frequencies [1, 2, 1], scaled by 3;
    the three products [3 * 2^24, 3 * 2^24, 6] are exact.  Unscaled, the
    last magnitude is lost when the total is rounded ([2^25 + 2] gives
    [2^25]); the half is [2^24], which the first bin reaches: median 1,
    mean [3 * 2^24 / 2^25 = 1.5].  Scaled, the last magnitude rounds the
    total up ([6 * 2^24 + 6] gives [6 * 2^24 + 8]); the half is
    [3 * 2^24 + 4], which the first bin misses: median 2, and the mean
    is the number just below 1.5. *)
Lemma scaling_changes_binary32_features :
  let fft_mag := [hz 16777216; hz 16777216; hz 2] in
  let freqs := [hz 1; hz 2; hz 1] in
  let k := hz 3 in
  f32_gt k f32_zero = true /\
  scale k fft_mag = [hz 50331648; hz 50331648; hz 6] /\
  CalcMedianFreq fft_mag freqs 3 = hz 1 /\
  CalcMedianFreq (scale k fft_mag) freqs 3 = hz 2 /\
  CalcMedianFreq (scale k fft_mag) freqs 3 <> CalcMedianFreq fft_mag freqs 3 /\
  CalcMeanFreq (scale k fft_mag) freqs 3 <> CalcMeanFreq fft_mag freqs 3.
Proof.
  cbv zeta. repeat split.
  - vm_compute. discriminate.
  - vm_compute. discriminate.
Qed.

(** ** Moving a computation by whole binades

    What the rounding of [binary_round_aux] does depends on the exponent
    only through the distance to the two ends of the exponent range.
    Away from them, a sum, a product or a quotient of numbers whose
    exponents are moved by [n] is the result with its exponent moved by
    [n]. *)

Lemma fexp_eq (x : Z) : fexp prec emax x = Z.max (x - 24) (-149).
Proof. reflexivity. Qed.

Lemma shr_1_digits (mrs : shr_record) :
  Zdigits2 (shr_m (shr_1 mrs)) = Z.max 0 (Zdigits2 (shr_m mrs) - 1).
Proof.
  destruct mrs as [[|[p|p|]|[p|p|]] r s]; cbn; lia.
Qed.

Lemma shr_1_nonneg (mrs : shr_record) : 0 <= shr_m mrs -> 0 <= shr_m (shr_1 mrs).
Proof.
  destruct mrs as [[|[p|p|]|[p|p|]] r s]; cbn; lia.
Qed.

Lemma iter_shr_1_digits (p : positive) (mrs : shr_record) :
  Zdigits2 (shr_m (SpecFloat.iter_pos shr_1 p mrs)) = Z.max 0 (Zdigits2 (shr_m mrs) - Z.pos p).
Proof.
  revert mrs. induction p as [p IH|p IH|]; intros mrs; cbn [SpecFloat.iter_pos].
  - rewrite !IH, shr_1_digits. lia.
  - rewrite !IH. lia.
  - apply shr_1_digits.
Qed.

Lemma iter_shr_1_nonneg (p : positive) (mrs : shr_record) :
  0 <= shr_m mrs -> 0 <= shr_m (SpecFloat.iter_pos shr_1 p mrs).
Proof.
  revert mrs. induction p as [p IH|p IH|]; intros mrs H; cbn [SpecFloat.iter_pos].
  - apply IH, IH, shr_1_nonneg, H.
  - apply IH, IH, H.
  - apply shr_1_nonneg, H.
Qed.

Lemma corelib_succ (p : positive) : Z.pos (PosDef.Pos.succ p) = Z.pos p + 1.
Proof. apply Pos2Z.inj_succ. Qed.

Lemma digits2_pos_succ (p : positive) :
  (Z.pos (digits2_pos (Pos.succ p)) <= Z.pos (digits2_pos p) + 1).
Proof.
  induction p as [p IH|p IH|].
  - change (Pos.succ p~1) with ((Pos.succ p)~0)%positive.
    cbn [digits2_pos]. rewrite !corelib_succ. lia.
  - change (Pos.succ p~0) with (p~1)%positive.
    cbn [digits2_pos]. rewrite !corelib_succ. lia.
  - vm_compute. discriminate.
Qed.

Lemma round_digits (m : Z) (l : location) :
  0 <= m ->
  0 <= round_nearest_even m l /\
  Zdigits2 (round_nearest_even m l) <= Zdigits2 m + 1.
Proof.
  intros Hm.
  assert (H1 : 0 <= m + 1 /\ Zdigits2 (m + 1) <= Zdigits2 m + 1).
  { destruct m as [|p|p]; [split; [lia|vm_compute; discriminate]| |lia].
    split; [lia|]. change (Z.pos p + 1) with (Z.pos (p + 1)).
    rewrite Pos.add_1_r. apply digits2_pos_succ. }
  unfold round_nearest_even.
  destruct l as [|[| |]]; try (split; lia); try exact H1.
  destruct (Z.even m); [split; lia|exact H1].
Qed.

Lemma shr_record_of_loc_m (m : Z) (l : location) : shr_m (shr_record_of_loc m l) = m.
Proof. destruct l as [|[| |]]; reflexivity. Qed.

(** The exponent a rounding step ends on, and the width of what it leaves. *)
Lemma shr_fexp_spec (m e : Z) (l : location) :
  0 <= m ->
  snd (shr_fexp prec emax m e l) = Z.max e (fexp prec emax (Zdigits2 m + e)) /\
  0 <= shr_m (fst (shr_fexp prec emax m e l)) /\
  Zdigits2 (shr_m (fst (shr_fexp prec emax m e l))) <= Z.max 24 0 /\
  (fexp prec emax (Zdigits2 m + e) <= e ->
   fst (shr_fexp prec emax m e l) = shr_record_of_loc m l).
Proof.
  intros Hm. unfold shr_fexp, shr. rewrite fexp_eq.
  assert (Hd : 0 <= Zdigits2 m) by (destruct m; cbn; lia).
  destruct (Z.max (Zdigits2 m + e - 24) (-149) - e) as [|p|p] eqn:E; cbn [fst snd].
  - rewrite shr_record_of_loc_m. repeat split; try lia.
  - rewrite iter_shr_1_digits, shr_record_of_loc_m. repeat split; try lia.
    apply iter_shr_1_nonneg. rewrite shr_record_of_loc_m. exact Hm.
  - rewrite shr_record_of_loc_m. repeat split; try lia.
Qed.

(** Shifting the exponent by [n] shifts the step, when the step does not
    meet the lower end of the exponent range. *)
Lemma shr_fexp_shift (m e n : Z) (l : location) :
  fexp prec emax (Zdigits2 m + (e + n)) = fexp prec emax (Zdigits2 m + e) + n \/
  (fexp prec emax (Zdigits2 m + e) <= e /\ fexp prec emax (Zdigits2 m + (e + n)) <= e + n) ->
  shr_fexp prec emax m (e + n) l
  = (fst (shr_fexp prec emax m e l), snd (shr_fexp prec emax m e l) + n).
Proof.
  unfold shr_fexp, shr. intros [H|[H1 H2]].
  - rewrite H.
    replace (fexp prec emax (Zdigits2 m + e) + n - (e + n))
      with (fexp prec emax (Zdigits2 m + e) - e) by lia.
    destruct (fexp prec emax (Zdigits2 m + e) - e); cbn [fst snd]; f_equal; lia.
  - destruct (fexp prec emax (Zdigits2 m + e) - e) eqn:E1; try lia;
      destruct (fexp prec emax (Zdigits2 m + (e + n)) - (e + n)) eqn:E2; try lia;
      reflexivity.
Qed.

(** A rounding whose result is finite, with room on both sides, is the
    same rounding [n] binades away.  The first step of the rounding then
    ends at least one binade above the least exponent. *)
Lemma binary_round_aux_shift (s : bool) (m e n : Z) (l : location) :
  0 <= m ->
  finite_room n (binary_round_aux prec emax s m e l) ->
  binary_round_aux prec emax s m (e + n) l
  = scale2 n (binary_round_aux prec emax s m e l) /\
  -148 + Z.abs n <= Z.max e (fexp prec emax (Zdigits2 m + e)).
Proof.
  intros Hm. unfold binary_round_aux.
  destruct (shr_fexp_spec m e l Hm) as (He1 & Hm1 & Hd1 & Hk1).
  destruct (shr_fexp prec emax m e l) as [mrs1 e1] eqn:E1. cbn [fst snd] in *.
  destruct (round_digits (shr_m mrs1) (loc_of_shr_record mrs1) Hm1) as [Hr Hrd].
  set (m1 := round_nearest_even (shr_m mrs1) (loc_of_shr_record mrs1)) in *.
  destruct (shr_fexp_spec m1 e1 loc_Exact Hr) as (He2 & Hm2 & Hd2 & Hk2).
  destruct (shr_fexp prec emax m1 e1 loc_Exact) as [mrs2 e2] eqn:E2. cbn [fst snd] in *.
  destruct (shr_m mrs2) as [|p|p] eqn:Ep; cbn [finite_room]; try tauto.
  destruct (Z.leb_spec e2 (emax - prec)) as [Hle|Hgt]; cbn [finite_room]; [|tauto].
  intros Hroom. rewrite !fexp_eq in *.
  assert (S1 : shr_fexp prec emax m (e + n) l = (mrs1, e1 + n)).
  { rewrite shr_fexp_shift, E1; [reflexivity|]. rewrite !fexp_eq. lia. }
  rewrite S1.
  assert (S2 : shr_fexp prec emax m1 (e1 + n) loc_Exact = (mrs2, e2 + n)).
  { rewrite shr_fexp_shift, E2; [reflexivity|]. rewrite !fexp_eq. lia. }
  fold m1. rewrite S2, Ep.
  unfold emax, prec in *.
  destruct (Z.leb_spec (e2 + n) (128 - 24)); [|lia].
  split; [reflexivity|lia].
Qed.

Lemma iter_xO_digits (d m : positive) :
  Z.pos (digits2_pos (Pos.iter xO m d)) = Z.pos (digits2_pos m) + Z.pos d.
Proof.
  induction d as [|d IH] using Pos.peano_ind.
  - cbn [Pos.iter digits2_pos]. rewrite corelib_succ. reflexivity.
  - rewrite Pos.iter_succ. cbn [digits2_pos]. rewrite corelib_succ, IH. lia.
Qed.

Lemma shl_align_spec (mx : positive) (ex t : Z) :
  snd (shl_align mx ex t) = Z.min ex t /\
  Z.pos (digits2_pos (fst (shl_align mx ex t))) + snd (shl_align mx ex t)
  = Z.pos (digits2_pos mx) + ex.
Proof.
  unfold shl_align. destruct (t - ex) as [|p|p] eqn:E; cbn [fst snd].
  - lia.
  - lia.
  - rewrite iter_xO_digits. lia.
Qed.

Lemma shl_align_shift (mx : positive) (ex t n : Z) :
  shl_align mx (ex + n) (t + n) = (fst (shl_align mx ex t), snd (shl_align mx ex t) + n).
Proof.
  unfold shl_align. replace (t + n - (ex + n)) with (t - ex) by lia.
  destruct (t - ex); reflexivity.
Qed.

Lemma binary_round_shift (s : bool) (mx : positive) (ex n : Z) :
  finite_room n (binary_round prec emax s mx ex) ->
  binary_round prec emax s mx (ex + n) = scale2 n (binary_round prec emax s mx ex).
Proof.
  unfold binary_round.
  destruct (shl_align_spec mx ex (fexp prec emax (Z.pos (digits2_pos mx) + ex))) as [Hz Hd].
  destruct (shl_align mx ex _) as [mz ez] eqn:E. cbn [fst snd] in Hz, Hd.
  intros Hroom.
  destruct (binary_round_aux_shift s (Z.pos mz) ez n loc_Exact) as [Heq Hlow];
    [lia|exact Hroom|].
  cbn [Zdigits2] in Hlow. rewrite Hd in Hlow. rewrite fexp_eq in Hlow, Hz.
  replace (fexp prec emax (Z.pos (digits2_pos mx) + (ex + n)))
    with (fexp prec emax (Z.pos (digits2_pos mx) + ex) + n) by (rewrite !fexp_eq; lia).
  rewrite shl_align_shift, E. cbn [fst snd]. exact Heq.
Qed.

(** A sum of two finite numbers with room in its exponent is the same sum
    in every binade. *)
Lemma f32_add_shift (n : Z) (x y : float) :
  (is_finite32 x && is_finite32 y = true -> finite_room n (f32_add x y)) ->
  f32_add (scale2 n x) (scale2 n y) = scale2 n (f32_add x y).
Proof.
  destruct x as [sx|sx| |sx mx ex], y as [sy|sy| |sy my ey]; cbn [is_finite32 andb];
    intros H; try reflexivity.
  - destruct sx, sy; reflexivity.
  - destruct sx, sy; reflexivity.
  - specialize (H eq_refl). revert H.
    unfold f32_add, SFadd. cbn [scale2].
    rewrite Z.add_min_distr_r, !shl_align_shift. cbn [fst].
    match goal with |- context [binary_normalize _ _ ?z _ _] =>
      destruct z as [|p|p] end; cbn [binary_normalize].
    + intros [].
    + apply binary_round_shift.
    + apply binary_round_shift.
Qed.

(** The same for a product, one factor moved. *)
Lemma f32_mul_shift (n : Z) (x y : float) :
  (is_finite32 x && is_finite32 y = true -> finite_room n (f32_mul x y)) ->
  f32_mul x (scale2 n y) = scale2 n (f32_mul x y).
Proof.
  destruct x as [sx|sx| |sx mx ex], y as [sy|sy| |sy my ey]; cbn [is_finite32 andb];
    intros H; try reflexivity.
  specialize (H eq_refl). revert H.
  unfold f32_mul, SFmul. cbn [scale2]. rewrite Z.add_assoc.
  intros H. apply binary_round_aux_shift; [lia|exact H].
Qed.

(** A quotient does not see a move of both its operands. *)
Lemma f32_div_cancel (n : Z) (x y : float) :
  f32_div (scale2 n x) (scale2 n y) = f32_div x y.
Proof.
  destruct x as [sx|sx| |sx mx ex], y as [sy|sy| |sy my ey]; try reflexivity.
  unfold f32_div, SFdiv, SFdiv_core_binary. cbn [scale2].
  replace (Zdigits2 (Z.pos mx) + (ex + n) - (Zdigits2 (Z.pos my) + (ey + n)))
    with (Zdigits2 (Z.pos mx) + ex - (Zdigits2 (Z.pos my) + ey)) by lia.
  replace (ex + n - (ey + n)) with (ex - ey) by lia.
  reflexivity.
Qed.

(** Nor does a comparison. *)
Lemma SFcompare_shift (n : Z) (x y : float) :
  SFcompare (scale2 n x) (scale2 n y) = SFcompare x y.
Proof.
  destruct x as [sx|sx| |sx mx ex], y as [sy|sy| |sy my ey]; try reflexivity.
  cbn [scale2 SFcompare].
  rewrite (Z.add_comm ex n), (Z.add_comm ey n), Z.add_compare_mono_l. reflexivity.
Qed.

(** A normal number times one is the number itself. *)
Lemma f32_mul_one (s : bool) (m : positive) (e : Z) :
  Z.pos (digits2_pos m) = 24 -> -149 <= e <= 104 ->
  f32_mul (pow2 0) (S754_finite s m e) = S754_finite s m e.
Proof.
  intros Hd He. unfold f32_mul, SFmul, pow2. cbn [xorb].
  change (Z.pos (8388608 * m)) with (Z.pos m~0~0~0~0~0~0~0~0~0~0~0~0~0~0~0~0~0~0~0~0~0~0~0).
  unfold binary_round_aux, shr_fexp.
  cbn [Zdigits2 digits2_pos]. rewrite !corelib_succ, Hd, fexp_eq.
  replace (Z.max (24 + 1 + 1 + 1 + 1 + 1 + 1 + 1 + 1 + 1 + 1 + 1 + 1 + 1 + 1 + 1 + 1 + 1
                  + 1 + 1 + 1 + 1 + 1 + 1 + (0 - 23 + e) - 24) (-149) - (0 - 23 + e))
    with 23 by lia.
  cbn [shr shr_record_of_loc SpecFloat.iter_pos shr_1 shr_m shr_r shr_s orb
       loc_of_shr_record round_nearest_even Zdigits2].
  rewrite Hd, fexp_eq.
  replace (Z.max (24 + (0 - 23 + e + 23) - 24) (-149) - (0 - 23 + e + 23)) with 0 by lia.
  cbn [shr shr_m]. unfold emax, prec.
  destruct (Z.leb_spec (0 - 23 + e + 23) (128 - 24)); [|lia].
  f_equal. lia.
Qed.

Lemma normal32_spec (n : Z) (x : float) :
  normal32 n x = true ->
  exists s m e, x = S754_finite s m e /\ Z.pos (digits2_pos m) = 24 /\
                -147 + Z.abs n <= e <= 104 - Z.abs n.
Proof.
  destruct x as [| | |s m e]; try discriminate. cbn [normal32]. unfold prec.
  intros H. apply andb_prop in H as [H H3]. apply andb_prop in H as [H1 H2].
  exists s, m, e. split; [reflexivity|]. lia.
Qed.

(** Multiplying a normal number by [2^n] moves its exponent. *)
Lemma f32_mul_pow2 (n : Z) (x : float) :
  normal32 n x = true -> f32_mul (pow2 n) x = scale2 n x.
Proof.
  intros H. destruct (normal32_spec n x H) as (s & m & e & -> & Hd & He).
  pose proof (f32_mul_one s m e Hd ltac:(lia)) as H1.
  unfold f32_mul, SFmul, pow2 in *.
  replace (n - 23 + e) with (0 - 23 + e + n) by lia.
  destruct (binary_round_aux_shift (xorb false s) (Z.pos (8388608 * m)) (0 - 23 + e) n loc_Exact)
    as [Heq _]; [lia|rewrite H1; cbn; lia|].
  rewrite Heq, H1. reflexivity.
Qed.

(** Half of a normal number is the number one binade down. *)
Lemma f32_half (s : bool) (m : positive) (e : Z) :
  Z.pos (digits2_pos m) = 24 -> -147 <= e <= 105 ->
  f32_div (S754_finite s m e) (f32_of_Z 2) = S754_finite s m (e - 1).
Proof.
  intros Hd He.
  change (f32_of_Z 2) with (S754_finite false 8388608 (-22)).
  unfold f32_div, SFdiv, SFdiv_core_binary.
  cbn [Zdigits2]. rewrite Hd.
  change (Z.pos (digits2_pos 8388608)) with 24. rewrite fexp_eq.
  replace (Z.min (Z.max (24 + e - (24 + -22) - 24) (-149)) (e - -22)) with (e - 2) by lia.
  replace (e - -22 - (e - 2)) with 24 by lia.
  assert (Hq : Z.div_eucl (Z.shiftl (Z.pos m) 24) 8388608 = (Z.pos m~0, 0)).
  { rewrite Z.shiftl_mul_pow2 by lia.
    pose proof (Z.div_eucl_eq (Z.pos m * 2 ^ 24) 8388608 ltac:(lia)) as E.
    pose proof (Z.mod_pos_bound (Z.pos m * 2 ^ 24) 8388608 ltac:(lia)) as B.
    unfold Z.modulo in B.
    destruct (Z.div_eucl (Z.pos m * 2 ^ 24) 8388608) as [q r].
    assert (r = 0 /\ q = Z.pos m~0) as [-> ->]; [|reflexivity].
    change (2 ^ 24) with (2 * 8388608) in E.
    rewrite Pos2Z.inj_xO. nia. }
  rewrite Hq. change (new_location 8388608 0) with loc_Exact.
  unfold binary_round_aux, shr_fexp.
  cbn [Zdigits2 digits2_pos]. rewrite corelib_succ, Hd, fexp_eq.
  replace (Z.max (24 + 1 + (e - 2) - 24) (-149) - (e - 2)) with 1 by lia.
  cbn [shr shr_record_of_loc SpecFloat.iter_pos shr_1 shr_m shr_r shr_s orb
       loc_of_shr_record round_nearest_even Zdigits2].
  rewrite Hd, fexp_eq.
  replace (Z.max (24 + (e - 2 + 1) - 24) (-149) - (e - 2 + 1)) with 0 by lia.
  cbn [shr shr_m]. unfold emax, prec.
  destruct (Z.leb_spec (e - 2 + 1) (128 - 24)); [|lia].
  rewrite xorb_false_r. f_equal. lia.
Qed.

Lemma f32_half_shift (n : Z) (x : float) :
  (is_finite32 x = true -> normal32 n x = true) ->
  f32_div (scale2 n x) (f32_of_Z 2) = scale2 n (f32_div x (f32_of_Z 2)).
Proof.
  destruct x as [sx|sx| |s m e]; cbn [is_finite32]; intros H; try reflexivity.
  destruct (normal32_spec n _ (H eq_refl)) as (s' & m' & e' & [= <- <- <-] & Hd & He).
  cbn [scale2]. rewrite !f32_half by lia. cbn [scale2]. f_equal. lia.
Qed.

(** ** Scaling by a power of two, in binary32 *)

Lemma normal32_room (n : Z) (x : float) : normal32 n x = true -> finite_room n x.
Proof.
  intros H. destruct (normal32_spec n x H) as (s & m & e & -> & _ & He). exact He.
Qed.

Lemma sum_has_room_spec (n : Z) (x y : float) :
  sum_has_room n x y = true ->
  f32_add (scale2 n x) (scale2 n y) = scale2 n (f32_add x y) /\
  (has_room n x = true -> has_room n y = true -> has_room n (f32_add x y) = true).
Proof.
  unfold sum_has_room. intros H. split.
  - apply f32_add_shift. intros Hf. rewrite Hf in H. apply normal32_room, H.
  - unfold has_room. destruct (is_finite32 x && is_finite32 y) eqn:Hf.
    + cbn [negb orb] in H. intros _ _. rewrite H. apply orb_true_r.
    + intros Hx Hy. unfold f32_add, SFadd.
      destruct x as [sx|sx| |sx mx ex], y as [sy|sy| |sy my ey];
        try discriminate Hf; try assumption; try reflexivity;
        destruct sx, sy; reflexivity.
Qed.

Lemma product_has_room_spec (n : Z) (x y : float) :
  product_has_room n x y = true ->
  f32_mul x (scale2 n y) = scale2 n (f32_mul x y).
Proof.
  unfold product_has_room. intros H.
  apply f32_mul_shift. intros Hf. rewrite Hf in H. apply normal32_room, H.
Qed.

Lemma has_room_pow2 (n : Z) (x : float) :
  has_room n x = true -> f32_mul (pow2 n) x = scale2 n x.
Proof.
  unfold has_room. destruct x as [s|s| |s m e]; cbn [is_finite32 negb orb].
  - intros _. reflexivity.
  - intros _. reflexivity.
  - intros _. reflexivity.
  - apply f32_mul_pow2.
Qed.

Lemma has_room_half (n : Z) (x : float) :
  has_room n x = true ->
  f32_div (scale2 n x) (f32_of_Z 2) = scale2 n (f32_div x (f32_of_Z 2)).
Proof.
  unfold has_room. intros H. apply f32_half_shift. intros Hf.
  rewrite Hf in H. exact H.
Qed.

Lemma aget_scale (n : Z) (mag : list float) (i : Z) :
  aget (scale (pow2 n) mag) i = f32_mul (pow2 n) (aget mag i).
Proof.
  unfold aget, scale. destruct (i <? 0); [reflexivity|].
  generalize (Z.to_nat i). intros j. revert j.
  induction mag as [|x mag IH]; intros [|j]; cbn [fmap list_fmap nth];
    try reflexivity.
  apply IH.
Qed.

Lemma total_loop_shift (n : Z) (mag : list float) (idx : list Z) (total : float) :
  sums_have_room n mag idx total = true ->
  total_loop (scale (pow2 n) mag) idx (scale2 n total)
  = scale2 n (total_loop mag idx total) /\
  (has_room n total = true -> has_room n (total_loop mag idx total) = true).
Proof.
  revert total. induction idx as [|i idx IH]; intros total H.
  - split; [reflexivity|auto].
  - cbn [sums_have_room] in H.
    apply andb_prop in H as [H H3]. apply andb_prop in H as [H1 H2].
    destruct (sum_has_room_spec n _ _ H2) as [Hadd Hroom].
    destruct (IH _ H3) as [IH1 IH2].
    rewrite !total_loop_cons, aget_scale, (has_room_pow2 n _ H1).
    cbn [a_add arith_f32]. rewrite Hadd. split; [exact IH1|].
    intros Ht. apply IH2, Hroom; assumption.
Qed.

Lemma f32_ge_shift (n : Z) (x y : float) :
  f32_ge (scale2 n x) (scale2 n y) = f32_ge x y.
Proof. unfold f32_ge, SFleb. rewrite SFcompare_shift. reflexivity. Qed.

Lemma f32_gt_zero_shift (n : Z) (x : float) :
  f32_gt (scale2 n x) f32_zero = f32_gt x f32_zero.
Proof.
  unfold f32_gt, SFltb. change f32_zero with (scale2 n f32_zero) at 1.
  rewrite SFcompare_shift. reflexivity.
Qed.

Lemma median_scan_shift
  (n : Z) (mag freqs : list float) (idx : list Z) (half accum : float) :
  sums_have_room n mag idx accum = true ->
  median_scan (scale (pow2 n) mag) freqs (scale2 n half) (scale2 n accum) idx
  = median_scan mag freqs half accum idx.
Proof.
  revert accum. induction idx as [|i idx IH]; intros accum H; [reflexivity|].
  cbn [sums_have_room] in H.
  apply andb_prop in H as [H H3]. apply andb_prop in H as [H1 H2].
  destruct (sum_has_room_spec n _ _ H2) as [Hadd _].
  rewrite !median_scan_cons, aget_scale, (has_room_pow2 n _ H1).
  cbn [a_add a_ge arith_f32]. rewrite Hadd, f32_ge_shift.
  destruct (f32_ge (f32_add accum (aget mag i)) half); [reflexivity|].
  apply IH, H3.
Qed.

Lemma mean_loop_shift
  (n : Z) (mag freqs : list float) (idx : list Z) (num den : float) :
  sums_have_room n mag idx den = true ->
  weighted_sums_have_room n mag freqs idx num = true ->
  mean_loop (scale (pow2 n) mag) freqs idx (scale2 n num, scale2 n den)
  = (scale2 n (fst (mean_loop mag freqs idx (num, den))),
     scale2 n (snd (mean_loop mag freqs idx (num, den)))).
Proof.
  revert num den. induction idx as [|i idx IH]; intros num den Hs Hw; [reflexivity|].
  cbn [sums_have_room] in Hs. cbn [weighted_sums_have_room] in Hw.
  apply andb_prop in Hs as [Hs Hs3]. apply andb_prop in Hs as [Hs1 Hs2].
  apply andb_prop in Hw as [Hw Hw3]. apply andb_prop in Hw as [Hw1 Hw2].
  destruct (sum_has_room_spec n _ _ Hs2) as [Hadd _].
  destruct (sum_has_room_spec n _ _ Hw2) as [Hwadd _].
  rewrite !mean_loop_cons, aget_scale, (has_room_pow2 n _ Hs1).
  cbn [a_add a_mul arith_f32].
  rewrite (product_has_room_spec n _ _ Hw1), Hadd, Hwadd.
  apply IH; assumption.
Qed.

(** C8, as the firmware computes it.  For [k = 2^n], [CalcMeanFreq] and
    [CalcMedianFreq] return for [k * fft_mag] what they return for
    [fft_mag], provided the unscaled computation has room in its
    exponents: every finite non-zero magnitude, every running sum of
    magnitudes, every product [freqs[i] * fft_mag[i]] and every running
    sum of products is a normal number whose magnitude lies in
    [[2^(-124+|n|), 2^(128-|n|))].  Multiplying by [2^n] then moves every
    one of them by [n] binades, each rounding rounds as before, and the
    comparisons and the final quotient do not see the move. *)
Theorem power_of_two_scale_invariance (n : Z) (fft_mag freqs : list float) (len : Z) :
  -126 <= n <= 127 ->
  sums_have_room n fft_mag (seqZ 0 len) f32_zero = true ->
  weighted_sums_have_room n fft_mag freqs (seqZ 0 len) f32_zero = true ->
  f32_gt (pow2 n) f32_zero = true /\
  CalcMeanFreq (scale (pow2 n) fft_mag) freqs len = CalcMeanFreq fft_mag freqs len /\
  CalcMedianFreq (scale (pow2 n) fft_mag) freqs len = CalcMedianFreq fft_mag freqs len.
Proof.
  intros Hn Hs Hw. split; [reflexivity|]. split.
  - unfold CalcMeanFreq. cbn [a_zero a_gt a_div arith_f32].
    change (f32_zero, f32_zero) with (scale2 n f32_zero, scale2 n f32_zero) at 1.
    rewrite mean_loop_shift by assumption.
    destruct (mean_loop fft_mag freqs (seqZ 0 len) (f32_zero, f32_zero)) as [num den].
    cbn [fst snd]. rewrite f32_gt_zero_shift.
    destruct (f32_gt den f32_zero); [apply f32_div_cancel|reflexivity].
  - unfold CalcMedianFreq. cbn [a_zero a_two a_div arith_f32].
    destruct (total_loop_shift n fft_mag (seqZ 0 len) f32_zero Hs) as [Ht Hroom].
    change f32_zero with (scale2 n f32_zero) at 1 2.
    rewrite Ht, has_room_half by (apply Hroom; reflexivity).
    rewrite median_scan_shift by exact Hs. reflexivity.
Qed.

Lemma power_of_two_scale_invariance_witness :
  let fft_mag := [hz 16777216; hz 16777216; hz 2] in
  let freqs := [hz 1; hz 2; hz 1] in
  pow2 1 = hz 2 /\
  scale (pow2 1) fft_mag = [hz 33554432; hz 33554432; hz 4] /\
  f32_gt (pow2 1) f32_zero = true /\
  CalcMeanFreq (scale (pow2 1) fft_mag) freqs 3 = CalcMeanFreq fft_mag freqs 3 /\
  CalcMedianFreq (scale (pow2 1) fft_mag) freqs 3 = CalcMedianFreq fft_mag freqs 3.
Proof.
  intros fft_mag freqs. split; [reflexivity|]. split; [reflexivity|].
  apply (power_of_two_scale_invariance 1 fft_mag freqs 3).
  - lia.
  - vm_compute. reflexivity.
  - vm_compute. reflexivity.
Defined.

(** ** The classifier *)

Lemma first_block_frame (fmed : float) (s : fatigue_state) :
  window_counter (fst (first_block fmed s)) = window_counter s /\
  f_ref_established (fst (first_block fmed s)) = f_ref_established s /\
  f_ref_accum (fst (first_block fmed s)) = f_ref_accum s.
Proof. unfold first_block. classifier_cases; auto. Qed.

Lemma first_block_detected (fmed : float) (s : fatigue_state) :
  fatigue_detected s = true -> fatigue_detected (fst (first_block fmed s)) = true.
Proof. intros Hd. unfold first_block. classifier_cases; auto. Qed.

Lemma second_block_counter (fmed : float) (s : fatigue_state) :
  window_counter (fst (second_block fmed s)) = window_counter s.
Proof. unfold second_block. classifier_cases; auto. Qed.

Lemma second_block_detected (fmed : float) (s : fatigue_state) :
  fatigue_detected s = true -> fatigue_detected (fst (second_block fmed s)) = true.
Proof. intros Hd. unfold second_block. classifier_cases; auto. Qed.

Lemma second_block_gate (fmed : float) (s : fatigue_state) :
  f_ref_established (fst (second_block fmed s))
  = f_ref_established s || (window_counter s =? BASELINE_WINDOWS).
Proof.
  unfold second_block. destruct (f_ref_established s) eqn:He; cbn.
  - classifier_cases; auto.
  - destruct (window_counter s <=? BASELINE_WINDOWS); cbn;
      destruct (window_counter s =? BASELINE_WINDOWS); cbn; auto.
Qed.

(** The nested text is the first block, with the second block run after
    it on the windows that take the branch of line 269. *)
Lemma nested_blocks_fst (fmed : float) (s : fatigue_state) :
  fst (nested_blocks fmed s)
  = if negb (window_counter s <=? BASELINE_WINDOWS) && f32_gt (f_ref s) f32_zero
    then fst (second_block fmed (fst (first_block fmed s)))
    else fst (first_block fmed s).
Proof.
  unfold nested_blocks, first_block.
  destruct (window_counter s <=? BASELINE_WINDOWS); cbn [negb andb]; [reflexivity|].
  destruct (f32_gt (f_ref s) f32_zero); [|reflexivity].
  destruct (f32_gt (drop_of (f_ref s) fmed) FATIGUE_THRESHOLD); cbn zeta.
  - destruct (negb (fatigue_detected _));
      destruct (_ && _); cbn [fst];
      match goal with |- context [second_block fmed ?x] =>
        destruct (second_block fmed x) end; reflexivity.
  - cbn [fst]. destruct (second_block fmed s); reflexivity.
Qed.

(** The statements of this section are about the classifier under the
    reading [r], whichever it is. *)
Section ClassifierFacts.
Context {r : reading}.

Lemma classify_fst (fmed : float) (s : fatigue_state) :
  fst (classify fmed s)
  = if reaches_second_block s
    then fst (second_block fmed (fst (first_block fmed s)))
    else fst (first_block fmed s).
Proof.
  unfold classify, reaches_second_block. destruct r.
  - apply nested_blocks_fst.
  - destruct (first_block fmed s) as [s1 out1]; cbn.
    destruct (second_block fmed s1) as [s2 out2]; reflexivity.
Qed.

Lemma fatigue_update_eq (fmed : float) (s : fatigue_state) :
  fatigue_update fmed s
  = if reaches_second_block (count_window s)
    then fst (second_block fmed (fst (first_block fmed (count_window s))))
    else fst (first_block fmed (count_window s)).
Proof. unfold fatigue_update. apply classify_fst. Qed.

Lemma fatigue_update_counter (fmed : float) (s : fatigue_state) :
  window_counter (fatigue_update fmed s) = wrap_int (window_counter s + 1).
Proof.
  rewrite fatigue_update_eq.
  destruct (first_block_frame fmed (count_window s)) as (Hw & _).
  destruct (reaches_second_block _); rewrite ?second_block_counter, Hw; reflexivity.
Qed.

Lemma fatigue_update_detected (fmed : float) (s : fatigue_state) :
  fatigue_detected s = true -> fatigue_detected (fatigue_update fmed s) = true.
Proof.
  intros Hd. rewrite fatigue_update_eq.
  destruct (reaches_second_block _);
    [apply second_block_detected|]; apply first_block_detected; exact Hd.
Qed.

Lemma fatigue_run_snoc (fmeds : list float) (fmed : float) (s : fatigue_state) :
  fatigue_run (fmeds ++ [fmed]) s = fatigue_update fmed (fatigue_run fmeds s).
Proof. unfold fatigue_run. rewrite fold_left_app. reflexivity. Qed.

Lemma fatigue_run_cons (fmeds : list float) (fmed : float) (s : fatigue_state) :
  fatigue_run (fmed :: fmeds) s = fatigue_run fmeds (fatigue_update fmed s).
Proof. reflexivity. Qed.

(** C6.  [fatigue_detected] is latched: once it is true it is true after
    every further sequence of classifier transitions, whatever the median
    frequencies of the windows. *)
Theorem fatigue_detected_latched (fmeds : list float) (s : fatigue_state) :
  fatigue_detected s = true -> fatigue_detected (fatigue_run fmeds s) = true.
Proof.
  revert s. induction fmeds as [|fmed fmeds IH]; intros s Hd; [exact Hd|].
  rewrite fatigue_run_cons. apply IH, fatigue_update_detected, Hd.
Qed.

(** The flag [f_ref_established] goes up on the window numbered
    [BASELINE_WINDOWS], if that window reaches the second block. *)
Lemma fatigue_update_gate (fmed : float) (s : fatigue_state) :
  f_ref_established (fatigue_update fmed s)
  = f_ref_established s
    || (reaches_second_block (count_window s)
        && (wrap_int (window_counter s + 1) =? BASELINE_WINDOWS)).
Proof.
  rewrite fatigue_update_eq.
  destruct (first_block_frame fmed (count_window s)) as (Hw & He & _).
  destruct (reaches_second_block _); cbn [andb].
  - rewrite second_block_gate, Hw, He. reflexivity.
  - rewrite He, orb_false_r. reflexivity.
Qed.

(** The window numbered [BASELINE_WINDOWS] reaches the second block
    under [Layout] only. *)
Lemma baseline_window_reach (s : fatigue_state) :
  reaches_second_block s && (window_counter s =? BASELINE_WINDOWS)
  = match r with
    | Braces => false
    | Layout => window_counter s =? BASELINE_WINDOWS
    end.
Proof.
  unfold reaches_second_block. destruct r; [|reflexivity].
  destruct (Z.eqb_spec (window_counter s) BASELINE_WINDOWS) as [->|]; cbn.
  - reflexivity.
  - apply andb_false_r.
Qed.

(** Past the baseline no window writes [f_ref]. *)
Lemma fatigue_update_reference_frozen (fmed : float) (s : fatigue_state) :
  BASELINE_WINDOWS < window_counter (fatigue_update fmed s) ->
  f_ref (fatigue_update fmed s) = f_ref s.
Proof.
  intros Hwc. rewrite fatigue_update_counter in Hwc.
  rewrite fatigue_update_eq.
  assert (H1 : f_ref (fst (first_block fmed (count_window s))) = f_ref s).
  { unfold first_block. cbn [count_window set_window_counter window_counter f_ref].
    destruct (Z.leb_spec (wrap_int (window_counter s + 1)) BASELINE_WINDOWS); [lia|].
    classifier_cases; reflexivity. }
  destruct (reaches_second_block _); [|exact H1].
  destruct (first_block_frame fmed (count_window s)) as (Hw & _).
  cbn [count_window set_window_counter window_counter] in Hw.
  rewrite <- H1. rewrite <- Hw in Hwc.
  generalize dependent (fst (first_block fmed (count_window s))).
  intros s1 Hwc _ _. unfold second_block.
  destruct (negb (f_ref_established s1)).
  - destruct (Z.leb_spec (window_counter s1) BASELINE_WINDOWS); [lia|].
    destruct (Z.eqb_spec (window_counter s1) BASELINE_WINDOWS); [lia|reflexivity].
  - classifier_cases; reflexivity.
Qed.

(** After the five windows of the baseline [f_ref] is their mean. *)
Lemma reference_after_baseline (m1 m2 m3 m4 m5 : float) :
  let s := fatigue_run [m1; m2; m3; m4; m5] fatigue_init in
  f_ref s = f32_div (sum_list [m1; m2; m3; m4; m5]) (f32_of_Z BASELINE_WINDOWS) /\
  window_counter s = BASELINE_WINDOWS.
Proof. cbv zeta. destruct r; split; reflexivity. Qed.

(** The window counter and the flag [f_ref_established] along a
    session. *)
Lemma warm_up_progress (fmeds : list float) :
  Z.of_nat (length fmeds) < 2 ^ 31 ->
  window_counter (fatigue_run fmeds fatigue_init) = Z.of_nat (length fmeds) /\
  f_ref_established (fatigue_run fmeds fatigue_init)
  = match r with
    | Braces => false
    | Layout => BASELINE_WINDOWS <=? Z.of_nat (length fmeds)
    end.
Proof.
  induction fmeds as [|fmed fmeds IH] using rev_ind; intros Hlen.
  - split; [reflexivity|]. destruct r; reflexivity.
  - rewrite length_app in Hlen |- *. cbn [length] in Hlen |- *.
    destruct IH as [Hwc He]; [lia|].
    rewrite fatigue_run_snoc, fatigue_update_counter, fatigue_update_gate, Hwc, He.
    rewrite wrap_int_small by lia.
    split; [lia|].
    pose proof (baseline_window_reach (count_window (fatigue_run fmeds fatigue_init))) as Hb.
    cbn [count_window set_window_counter window_counter] in Hb.
    rewrite Hwc, wrap_int_small in Hb by lia. rewrite Hb.
    destruct r; [reflexivity|]. unfold BASELINE_WINDOWS.
    destruct (Z.leb_spec 5 (Z.of_nat (length fmeds)));
      destruct (Z.eqb_spec (Z.of_nat (length fmeds) + 1) 5);
      destruct (Z.leb_spec 5 (Z.of_nat (length fmeds + 1))); cbn; try reflexivity; lia.
Qed.

(** C4, the code at the first windows of a session.  [f_ref] is written
    on every warm-up window, not once: line 260 adds each median to it.
    After one window at 100 Hz it holds 100, after two it holds 200, in
    both cases with [f_ref_established] still false. *)
Theorem reference_written_during_warm_up :
  let s1 := fatigue_run [hz 100] fatigue_init in
  let s2 := fatigue_run [hz 100; hz 100] fatigue_init in
  f_ref fatigue_init = f32_zero /\
  window_counter s1 = 1 /\ f_ref_established s1 = false /\ f_ref s1 = hz 100 /\
  window_counter s2 = 2 /\ f_ref_established s2 = false /\ f_ref s2 = hz 200.
Proof. cbv zeta. destruct r; repeat split. Qed.

(** C5, the code on a run of drops that follows a recovery.  Reference
    100 Hz from five windows at 100 Hz; then one window at 80 Hz (drop
    0.2 > 0.15), one at 100 Hz (drop 0), and a run of two windows at
    80 Hz.  [fatigue_detected] is false when the run starts and true at
    its second window, under either reading: with the blocks one after
    the other each window of the run is counted twice, and with the
    second block nested the count of the earlier drop was never reset. *)
Theorem run_of_two_drops_latches :
  let s5 := fatigue_run (replicate 5 (hz 100)) fatigue_init in
  let s6 := fatigue_update (hz 80) s5 in
  let s7 := fatigue_update (hz 100) s6 in
  let s8 := fatigue_update (hz 80) s7 in
  let s9 := fatigue_update (hz 80) s8 in
  f_ref s5 = hz 100 /\ f_ref s7 = hz 100 /\
  f32_gt (drop_of (hz 100) (hz 80)) FATIGUE_THRESHOLD = true /\
  f32_gt (drop_of (hz 100) (hz 100)) FATIGUE_THRESHOLD = false /\
  fatigue_detected s7 = false /\
  fatigue_detected s8 = false /\
  fatigue_detected s9 = true.
Proof. cbv zeta. destruct r; repeat split. Qed.

End ClassifierFacts.

Lemma fatigue_detected_latched_witness :
  let r : reading := Braces in
  fatigue_detected
    (fatigue_run [hz 100; hz 120]
       (fatigue_run (replicate 5 (hz 100) ++ [hz 80; hz 80; hz 80]) fatigue_init))
  = true.
Proof.
  intros r. apply fatigue_detected_latched. reflexivity.
Defined.

(** *** With the braces as they stand *)

Section BracesFacts.
#[local] Existing Instance Braces.




End BracesFacts.


(** *** With the block of line 269 closed after line 290 *)

Section LayoutFacts.
#[local] Existing Instance Layout.

Lemma layout_update_eq (fmed : float) (s : fatigue_state) :
  fatigue_update fmed s
  = fst (second_block fmed (fst (first_block fmed (count_window s)))).
Proof. rewrite fatigue_update_eq. reflexivity. Qed.

Lemma layout_update_gate (fmed : float) (s : fatigue_state) :
  f_ref_established (fatigue_update fmed s)
  = f_ref_established s || (wrap_int (window_counter s + 1) =? BASELINE_WINDOWS).
Proof. rewrite fatigue_update_gate. reflexivity. Qed.

Lemma fatigue_update_inv (fmed : float) (s : fatigue_state) :
  baseline_inv s -> baseline_inv (fatigue_update fmed s).
Proof.
  unfold baseline_inv, BASELINE_WINDOWS.
  rewrite fatigue_update_counter, layout_update_gate.
  intros [->|Hwc]; [left; reflexivity|].
  rewrite wrap_int_small by lia.
  destruct (Z.eqb_spec (window_counter s + 1) BASELINE_WINDOWS) as [Heq|Hne].
  - left. apply orb_true_r.
  - right. unfold BASELINE_WINDOWS in Hne. lia.
Qed.

Lemma in_session_inv (s : fatigue_state) : in_session s -> baseline_inv s.
Proof.
  intros [fmeds <-]. induction fmeds as [|fmed fmeds IH] using rev_ind.
  - right. cbn. unfold BASELINE_WINDOWS. lia.
  - rewrite fatigue_run_snoc. apply fatigue_update_inv, IH.
Qed.

(** The same recovery window, had the block of line 269 been closed
    after line 290: the gate of the second block has been open since the
    fifth window, the [else] of line 330 is reached and leaves
    [fatigue_consecutive] at 0. *)
Lemma recovery_resets_counter (fmed : float) (s : fatigue_state) :
  in_session s ->
  BASELINE_WINDOWS < window_counter (fatigue_update fmed s) ->
  f32_gt (f_ref s) f32_zero = true ->
  f32_le (drop_of (f_ref s) fmed) FATIGUE_THRESHOLD = true ->
  fatigue_consecutive (fatigue_update fmed s) = 0 /\
  fatigue_detected (fatigue_update fmed s) = fatigue_detected s.
Proof.
  intros Hs Hwc Href Hdrop.
  rewrite fatigue_update_counter in Hwc.
  assert (He : f_ref_established s = true).
  { destruct (in_session_inv s Hs) as [He|Hr]; [exact He|].
    rewrite wrap_int_small in Hwc by (unfold BASELINE_WINDOWS in Hr; lia).
    unfold BASELINE_WINDOWS in *. lia. }
  apply f32_le_not_gt in Hdrop.
  rewrite layout_update_eq.
  assert (H1 : fst (first_block fmed (count_window s)) = count_window s).
  { unfold first_block. cbn [count_window set_window_counter window_counter f_ref].
    destruct (Z.leb_spec (wrap_int (window_counter s + 1)) BASELINE_WINDOWS); [lia|].
    rewrite Href, Hdrop. reflexivity. }
  rewrite H1. unfold second_block.
  cbn [count_window set_window_counter f_ref_established f_ref].
  rewrite He, Href, Hdrop. cbn. split; reflexivity.
Qed.

(** A window past the baseline whose drop exceeds the threshold is
    counted by both blocks: [fatigue_consecutive] goes up by two. *)
Lemma drop_window_counts_twice (fmed : float) (s : fatigue_state) :
  f_ref_established s = true ->
  BASELINE_WINDOWS < window_counter (fatigue_update fmed s) ->
  f32_gt (f_ref s) f32_zero = true ->
  f32_gt (drop_of (f_ref s) fmed) FATIGUE_THRESHOLD = true ->
  fatigue_consecutive (fatigue_update fmed s)
  = wrap_int (wrap_int (fatigue_consecutive s + 1) + 1).
Proof.
  intros He Hwc Href Hdrop. rewrite fatigue_update_counter in Hwc.
  rewrite layout_update_eq.
  destruct (first_block_frame fmed (count_window s)) as (_ & He1 & _).
  assert (H1 : f_ref (fst (first_block fmed (count_window s))) = f_ref s /\
               fatigue_consecutive (fst (first_block fmed (count_window s)))
               = wrap_int (fatigue_consecutive s + 1)).
  { unfold first_block. cbn [count_window set_window_counter window_counter f_ref].
    destruct (Z.leb_spec (wrap_int (window_counter s + 1)) BASELINE_WINDOWS); [lia|].
    rewrite Href, Hdrop. classifier_cases; split; reflexivity. }
  destruct H1 as [Hf Hc].
  unfold second_block. rewrite He1, Hf, Hc.
  cbn [count_window set_window_counter f_ref_established].
  rewrite He, Href, Hdrop. cbn. classifier_cases; reflexivity.
Qed.

(** A window past the baseline whose drop exceeds the threshold leaves
    the flag alone while fewer than three counts are reached. *)
Lemma drop_window_detected (fmed : float) (s : fatigue_state) :
  f_ref_established s = true ->
  BASELINE_WINDOWS < window_counter (fatigue_update fmed s) ->
  f32_gt (f_ref s) f32_zero = true ->
  f32_gt (drop_of (f_ref s) fmed) FATIGUE_THRESHOLD = true ->
  fatigue_detected (fatigue_update fmed s)
  = fatigue_detected s
    || (CONSECUTIVE_WINDOWS <=? wrap_int (fatigue_consecutive s + 1))
    || (CONSECUTIVE_WINDOWS <=? wrap_int (wrap_int (fatigue_consecutive s + 1) + 1)).
Proof.
  intros He Hwc Href Hdrop. rewrite fatigue_update_counter in Hwc.
  rewrite layout_update_eq.
  destruct (first_block_frame fmed (count_window s)) as (_ & He1 & _).
  assert (H1 : f_ref (fst (first_block fmed (count_window s))) = f_ref s /\
               fatigue_consecutive (fst (first_block fmed (count_window s)))
               = wrap_int (fatigue_consecutive s + 1) /\
               fatigue_detected (fst (first_block fmed (count_window s)))
               = fatigue_detected s
                 || (CONSECUTIVE_WINDOWS <=? wrap_int (fatigue_consecutive s + 1))).
  { unfold first_block. cbn [count_window set_window_counter window_counter f_ref].
    destruct (Z.leb_spec (wrap_int (window_counter s + 1)) BASELINE_WINDOWS); [lia|].
    rewrite Href, Hdrop.
    cbn [set_fatigue_consecutive fatigue_consecutive fatigue_detected].
    destruct (fatigue_detected s) eqn:Hd;
      destruct (CONSECUTIVE_WINDOWS <=? wrap_int (fatigue_consecutive s + 1)) eqn:Hc;
      cbn; rewrite ?Hd, ?Hc; cbn; auto. }
  destruct H1 as (Hf & Hc & Hd).
  remember (fst (first_block fmed (count_window s))) as s1 eqn:Es1. clear Es1.
  destruct s1 as [r1 w1 c1 d1 e1 a1]. cbn in He1, Hf, Hc, Hd. subst r1 c1 d1 e1.
  unfold second_block.
  cbn [f_ref_established f_ref fatigue_consecutive fatigue_detected
       set_fatigue_consecutive set_fatigue_detected negb].
  rewrite He, Href, Hdrop.
  cbn [negb f_ref_established f_ref fatigue_consecutive fatigue_detected
       set_fatigue_consecutive set_fatigue_detected].
  destruct (fatigue_detected s);
    destruct (CONSECUTIVE_WINDOWS <=? wrap_int (fatigue_consecutive s + 1));
    destruct (CONSECUTIVE_WINDOWS <=? wrap_int (wrap_int (fatigue_consecutive s + 1) + 1));
    reflexivity.
Qed.

(** From the start of a run (counter at 0, flag down), past the
    baseline: the flag stays down on the first window whose drop exceeds
    the threshold and goes up on the second. *)
Lemma second_drop_window_latches (m1 m2 : float) (s : fatigue_state) :
  f_ref_established s = true ->
  BASELINE_WINDOWS <= window_counter s < 2 ^ 31 - 2 ->
  f32_gt (f_ref s) f32_zero = true ->
  fatigue_consecutive s = 0 ->
  fatigue_detected s = false ->
  f32_gt (drop_of (f_ref s) m1) FATIGUE_THRESHOLD = true ->
  f32_gt (drop_of (f_ref s) m2) FATIGUE_THRESHOLD = true ->
  fatigue_detected (fatigue_update m1 s) = false /\
  fatigue_detected (fatigue_update m2 (fatigue_update m1 s)) = true.
Proof.
  intros He Hwc Href Hfc Hfd Hd1 Hd2. unfold BASELINE_WINDOWS in Hwc.
  assert (Hwc1 : BASELINE_WINDOWS < window_counter (fatigue_update m1 s)).
  { rewrite fatigue_update_counter, wrap_int_small by lia.
    unfold BASELINE_WINDOWS. lia. }
  pose proof (drop_window_detected m1 s He Hwc1 Href Hd1) as Hdet1.
  pose proof (drop_window_counts_twice m1 s He Hwc1 Href Hd1) as Hcnt1.
  pose proof (fatigue_update_reference_frozen m1 s Hwc1) as Href1.
  rewrite Hfc, Hfd in Hdet1. rewrite Hfc in Hcnt1.
  change (fatigue_detected (fatigue_update m1 s) = false) in Hdet1.
  change (fatigue_consecutive (fatigue_update m1 s) = 2) in Hcnt1.
  split; [exact Hdet1|].
  assert (He1 : f_ref_established (fatigue_update m1 s) = true)
    by (rewrite layout_update_gate, He; reflexivity).
  assert (Hwc2 : BASELINE_WINDOWS
                 < window_counter (fatigue_update m2 (fatigue_update m1 s))).
  { rewrite !fatigue_update_counter, !wrap_int_small
      by (rewrite ?wrap_int_small by lia; lia).
    unfold BASELINE_WINDOWS. lia. }
  rewrite <- Href1 in Href, Hd2.
  rewrite (drop_window_detected m2 _ He1 Hwc2 Href Hd2), Hdet1, Hcnt1.
  reflexivity.
Qed.

End LayoutFacts.

(** ** The task and the command handler *)

(** For any filter and FFT kernels [K], and either reading [r] of the
    classifier. *)
Section FirmwareFacts.
Context {FS : Type} (K : kernels FS) {r : reading}.

Lemma EMGTask_cycle_fields (s : firmware FS) :
  let s' := EMGTask_cycle K s in
  buffer s' = buffer s /\
  emg_window s'
    = CircularBufferReadWindow EMG_BUFFER_LEN BUFFER_SIZE (buffer s) (emg_window s) /\
  emg_fft s' = FFTMagnitude K (emg_window s') BUFFER_SIZE /\
  emg_filt_fft s' = FFTMagnitude K (emg_filt s') BUFFER_SIZE /\
  f_median s' = CalcMedianFreq (emg_filt_fft s') (f s') (BUFFER_SIZE / 2) /\
  fatigue s' = fatigue_update (f_median s') (fatigue s).
Proof.
  cbv zeta. unfold EMGTask_cycle, fatigue_update.
  destruct (HiPassFilter K _ _ _) as [fs1 filt0].
  destruct (LowPassFilter K _ _ _) as [fs2 filt].
  destruct (classify _ _) as [fat out] eqn:E. cbn.
  rewrite E. repeat split.
Qed.

Lemma EMGTask_cycle_features (s : firmware FS) :
  let s' := EMGTask_cycle K s in
  let hp := HiPassFilter K (filters s) (emg_window s') BUFFER_SIZE in
  let lp := LowPassFilter K (fst hp) (snd hp) BUFFER_SIZE in
  emg_filt s' = snd lp /\
  filters s' = fst lp /\
  f s' = FFTFrequency K SAMPLE_FREQ BUFFER_SIZE /\
  rms_value s' = CalcRMS (emg_filt s') BUFFER_SIZE /\
  f_mean s' = CalcMeanFreq (emg_filt_fft s') (f s') (BUFFER_SIZE / 2).
Proof.
  cbv zeta. unfold EMGTask_cycle.
  destruct (HiPassFilter K _ _ _) as [fs1 filt0] eqn:E1.
  destruct (LowPassFilter K fs1 _ _) as [fs2 filt] eqn:E2.
  destruct (classify _ _) as [fat out]. cbn.
  rewrite E1. cbn. rewrite E2. repeat split.
Qed.

(** C1, as the code has it.  With fewer than [BUFFER_SIZE] samples held,
    only the copy is skipped: [emg_window] keeps what it held and the
    circular buffer is untouched, and the rest of the cycle runs on the
    old window.  The two filters run on it (their state advances); the
    spectrum of the window and that of the filtered signal are computed;
    the RMS value, the mean frequency and the median frequency are
    computed from the filtered signal and its spectrum; the window is
    counted and the classifier makes its transition from that median
    frequency. *)
Theorem underrun_cycle_runs_on_stale_window (s : firmware FS) :
  sample_count (buffer s) < BUFFER_SIZE ->
  let s' := EMGTask_cycle K s in
  let hp := HiPassFilter K (filters s) (emg_window s) BUFFER_SIZE in
  let lp := LowPassFilter K (fst hp) (snd hp) BUFFER_SIZE in
  buffer s' = buffer s /\
  emg_window s' = emg_window s /\
  emg_filt s' = snd lp /\
  filters s' = fst lp /\
  emg_fft s' = FFTMagnitude K (emg_window s) BUFFER_SIZE /\
  emg_filt_fft s' = FFTMagnitude K (snd lp) BUFFER_SIZE /\
  f s' = FFTFrequency K SAMPLE_FREQ BUFFER_SIZE /\
  rms_value s' = CalcRMS (snd lp) BUFFER_SIZE /\
  f_mean s'
  = CalcMeanFreq (FFTMagnitude K (snd lp) BUFFER_SIZE)
      (FFTFrequency K SAMPLE_FREQ BUFFER_SIZE) (BUFFER_SIZE / 2) /\
  f_median s'
  = CalcMedianFreq (FFTMagnitude K (snd lp) BUFFER_SIZE)
      (FFTFrequency K SAMPLE_FREQ BUFFER_SIZE) (BUFFER_SIZE / 2) /\
  window_counter (fatigue s') = wrap_int (window_counter (fatigue s) + 1) /\
  fatigue s' = fatigue_update (f_median s') (fatigue s).
Proof.
  intros Hlt s'.
  destruct (EMGTask_cycle_fields s) as (Hbuf & Hw & Hfft & Hffft & Hmed & Hfat).
  destruct (EMGTask_cycle_features s) as (Hfilt & Hfs & Hf & Hrms & Hmean).
  fold s' in Hbuf, Hw, Hfft, Hffft, Hmed, Hfat, Hfilt, Hfs, Hf, Hrms, Hmean.
  rewrite read_underrun in Hw by exact Hlt.
  rewrite Hw in Hfft, Hfilt, Hfs.
  rewrite Hfilt in Hffft, Hrms. rewrite Hffft, Hf in Hmean, Hmed.
  cbv zeta. repeat split; try assumption.
  rewrite Hfat. apply fatigue_update_counter.
Qed.

(** C9.  A message that starts with ['B'] adds the clear directive and
    the acknowledgement to what has been sent and changes nothing else:
    the circular buffer (array, cursor, count), the classifier state and
    every other field are as before. *)
Theorem clear_command_only_sends (rest : list Byte.byte) (length : Z) (s : firmware FS) :
  let out := [BleSendString (MsgText "*HC*");
              BleSendString (MsgText (String.append "*TLimpieza completada*" newline))] in
  exists s' : firmware FS,
    read_data ("B"%byte :: rest) length s = Some s' /\
    sent s' = sent s ++ out /\
    buffer s' = buffer s /\
    fatigue s' = fatigue s /\
    emg_window s' = emg_window s /\
    emg_filt s' = emg_filt s /\
    emg_fft s' = emg_fft s /\
    emg_filt_fft s' = emg_filt_fft s /\
    f s' = f s /\
    f_mean s' = f_mean s /\
    f_median s' = f_median s /\
    rms_value s' = rms_value s /\
    filters s' = filters s /\
    notified s' = notified s.
Proof.
  intros out. eexists. split; [reflexivity|]. cbn. repeat split.
Qed.

Lemma step_fatigue (e : event) (s s' : firmware FS) :
  step K e s = Some s' ->
  fatigue s' = fatigue s \/ exists fmed, fatigue s' = fatigue_update fmed (fatigue s).
Proof.
  destruct e as [adc|data|]; cbn.
  - intros [= <-]. left. reflexivity.
  - unfold read_data. destruct data as [|d0 rest]; [discriminate|].
    destruct (Byte.eqb d0 "R"); [intros [= <-]; left; reflexivity|].
    destruct (Byte.eqb d0 "B"); intros [= <-]; left; reflexivity.
  - unfold EMGTask. destruct (notified s =? 0); [discriminate|].
    intros [= <-]. right. eexists.
    apply (EMGTask_cycle_fields s).
Qed.

Lemma run_in_session (es : list event) (s s' : firmware FS) :
  run K es s = Some s' -> in_session (fatigue s) -> in_session (fatigue s').
Proof.
  revert s. induction es as [|e es IH]; intros s; cbn.
  - intros [= <-]. auto.
  - destruct (step K e s) as [s1|] eqn:E; [|discriminate].
    intros Hrun Hs. apply (IH s1 Hrun).
    destruct (step_fatigue e s s1 E) as [->|[fmed ->]]; [exact Hs|].
    destruct Hs as [fmeds <-]. exists (fmeds ++ [fmed]).
    apply fatigue_run_snoc.
Qed.

Lemma run_detected_latched (es : list event) (s s' : firmware FS) :
  run K es s = Some s' ->
  fatigue_detected (fatigue s) = true -> fatigue_detected (fatigue s') = true.
Proof.
  revert s. induction es as [|e es IH]; intros s; cbn.
  - intros [= <-]. auto.
  - destruct (step K e s) as [s1|] eqn:E; [|discriminate].
    intros Hrun Hd. apply (IH s1 Hrun).
    destruct (step_fatigue e s s1 E) as [->|[fmed ->]]; [exact Hd|].
    apply fatigue_update_detected, Hd.
Qed.
(** A burst of timer ticks is a sequence of writes of the converted
    values. *)
Lemma run_ticks (adcs : list Z) (s : firmware FS) :
  run K (Tick <$> adcs) s
  = Some (with_buffer
            (write_all EMG_BUFFER_LEN ((fun a => f32_of_Z (u16 a)) <$> adcs) (buffer s))
            s).
Proof.
  revert s. induction adcs as [|a adcs IH]; intros s.
  - destruct s; reflexivity.
  - cbn [fmap list_fmap run step]. rewrite IH. reflexivity.
Qed.

End FirmwareFacts.

(** C1, as the specification has it, fails: at start-up the buffer holds
    no sample, yet a cycle counts a window, changes the classifier state
    and sends its messages - the 256 spectrum lines, the metrics and the
    window number, and under [Layout] one more from the second block. *)
Lemma underrun_cycle_still_counts :
  let s := firmware_init tt in
  let s1 := EMGTask_cycle (r := Braces) loopback_kernels s in
  let s2 := EMGTask_cycle (r := Layout) loopback_kernels s in
  sample_count (buffer s) < BUFFER_SIZE /\
  window_counter (fatigue s) = 0 /\
  window_counter (fatigue s1) = 1 /\
  length (sent s1) = 258%nat /\
  fatigue s1 <> fatigue s /\
  window_counter (fatigue s2) = 1 /\
  length (sent s2) = 259%nat /\
  fatigue s2 <> fatigue s.
Proof.
  cbv zeta. vm_compute. repeat split; discriminate.
Qed.

Lemma underrun_cycle_runs_on_stale_window_witness :
  let r : reading := Braces in
  let K := loopback_kernels in
  let s := firmware_init tt in
  let s' := EMGTask_cycle K s in
  let hp := HiPassFilter K (filters s) (emg_window s) BUFFER_SIZE in
  let lp := LowPassFilter K (fst hp) (snd hp) BUFFER_SIZE in
  buffer s' = buffer s /\
  emg_window s' = emg_window s /\
  emg_filt s' = snd lp /\
  filters s' = fst lp /\
  emg_fft s' = FFTMagnitude K (emg_window s) BUFFER_SIZE /\
  emg_filt_fft s' = FFTMagnitude K (snd lp) BUFFER_SIZE /\
  f s' = FFTFrequency K SAMPLE_FREQ BUFFER_SIZE /\
  rms_value s' = CalcRMS (snd lp) BUFFER_SIZE /\
  f_mean s'
  = CalcMeanFreq (FFTMagnitude K (snd lp) BUFFER_SIZE)
      (FFTFrequency K SAMPLE_FREQ BUFFER_SIZE) (BUFFER_SIZE / 2) /\
  f_median s'
  = CalcMedianFreq (FFTMagnitude K (snd lp) BUFFER_SIZE)
      (FFTFrequency K SAMPLE_FREQ BUFFER_SIZE) (BUFFER_SIZE / 2) /\
  window_counter (fatigue s') = wrap_int (window_counter (fatigue s) + 1) /\
  fatigue s' = fatigue_update (f_median s') (fatigue s).
Proof.
  intros r K s.
  apply (underrun_cycle_runs_on_stale_window K s).
  reflexivity.
Defined.

(** * Further properties *)

(** ** The circular buffer between start-up and the first full window *)

(** X1.  Writing [n] samples to a well-formed buffer advances the cursor
    by [n] modulo the capacity and raises the count by [n] up to the
    capacity, where it stays; the array keeps its length and the cursor
    stays inside it. *)
Theorem writes_advance_cursor_and_count
  (LEN : Z) (b0 : sample_buffer) (ws : list float) :
  0 < LEN < 2 ^ 16 ->
  buffer_wf LEN b0 ->
  buffer_wf LEN (write_all LEN ws b0) /\
  write_index (write_all LEN ws b0)
    = (write_index b0 + Z.of_nat (length ws)) mod LEN /\
  sample_count (write_all LEN ws b0)
    = Z.min (sample_count b0 + Z.of_nat (length ws)) LEN.
Proof.
  intros [HL HU] Hwf.
  destruct (tracks_write_all LEN HL HU b0 ws Hwf) as (H1 & H2 & H3 & _).
  auto.
Qed.

Lemma writes_advance_cursor_and_count_witness :
  buffer_wf 4 (write_all 4 (hz <$> [1; 2; 3; 4; 5; 6]) (buffer_init 4)) /\
  write_index (write_all 4 (hz <$> [1; 2; 3; 4; 5; 6]) (buffer_init 4))
    = (write_index (buffer_init 4)
       + Z.of_nat (length (hz <$> [1; 2; 3; 4; 5; 6]))) mod 4 /\
  sample_count (write_all 4 (hz <$> [1; 2; 3; 4; 5; 6]) (buffer_init 4))
    = Z.min (sample_count (buffer_init 4)
             + Z.of_nat (length (hz <$> [1; 2; 3; 4; 5; 6]))) 4.
Proof.
  apply writes_advance_cursor_and_count.
  - lia.
  - apply buffer_init_wf. lia.
Defined.

(** X2.  From start-up, as long as fewer than [N] samples have been
    written, the window copy hands the destination back as it was. *)
Theorem no_window_before_N_writes
  (LEN N : Z) (ws window : list float) :
  0 < LEN < 2 ^ 16 ->
  Z.of_nat (length ws) < N ->
  CircularBufferReadWindow LEN N (write_all LEN ws (buffer_init LEN)) window = window.
Proof.
  intros [HL HU] Hn.
  destruct (tracks_write_all LEN HL HU (buffer_init LEN) ws (buffer_init_wf LEN HL))
    as (_ & _ & Hsc & _).
  apply read_underrun. rewrite Hsc. cbn. lia.
Qed.

Lemma no_window_before_N_writes_witness :
  CircularBufferReadWindow 4 3 (write_all 4 (hz <$> [1; 2]) (buffer_init 4))
    [hz 7; hz 8; hz 9]
  = [hz 7; hz 8; hz 9].
Proof.
  apply no_window_before_N_writes.
  - lia.
  - cbn. lia.
Defined.

(** ** The firmware as a whole *)

(** For any kernels [K] and either reading [r] of the classifier. *)
Section SystemFacts.
Context {FS : Type} (K : kernels FS) {r : reading}.

Lemma run_app (es1 es2 : list event) (s : firmware FS) :
  run K (es1 ++ es2) s
  = match run K es1 s with Some s' => run K es2 s' | None => None end.
Proof.
  revert s. induction es1 as [|e es1 IH]; intros s; cbn; [reflexivity|].
  destruct (step K e s); [apply IH|reflexivity].
Qed.

Lemma read_data_frame (data : list Byte.byte) (len : Z) (s s' : firmware FS) :
  read_data data len s = Some s' ->
  buffer s' = buffer s /\ fatigue s' = fatigue s /\
  emg_window s' = emg_window s /\ filters s' = filters s.
Proof.
  unfold read_data. destruct data as [|d0 rest]; [discriminate|].
  destruct (Byte.eqb d0 "R"); [intros [= <-]; cbn; auto|].
  destruct (Byte.eqb d0 "B"); intros [= <-]; cbn; auto.
Qed.

Lemma step_buffer (e : event) (s s' : firmware FS) :
  step K e s = Some s' ->
  buffer s' = write_all EMG_BUFFER_LEN (samples_of [e]) (buffer s).
Proof.
  destruct e as [adc|data|]; cbn.
  - intros [= <-]. reflexivity.
  - intros H. apply read_data_frame in H. tauto.
  - unfold EMGTask. destruct (notified s =? 0); [discriminate|].
    intros [= <-]. apply (EMGTask_cycle_fields K s).
Qed.

Lemma samples_of_cons (e : event) (es : list event) :
  samples_of (e :: es) = samples_of [e] ++ samples_of es.
Proof. unfold samples_of. cbn. rewrite app_nil_r. reflexivity. Qed.

Lemma run_buffer (es : list event) (s s' : firmware FS) :
  run K es s = Some s' ->
  buffer s' = write_all EMG_BUFFER_LEN (samples_of es) (buffer s).
Proof.
  revert s. induction es as [|e es IH]; intros s; cbn [run].
  - intros [= <-]. reflexivity.
  - destruct (step K e s) as [s1|] eqn:E; [|discriminate].
    intros Hrun. rewrite (samples_of_cons e es).
    unfold write_all at 1. rewrite fold_left_app.
    rewrite (IH s1 Hrun), (step_buffer e s s1 E). reflexivity.
Qed.

(** X4.  Whatever sequence of ticks, BLE messages and task cycles the
    firmware goes through from start-up, the circular buffer ends up as
    if only the ticks had happened: it is the start-up buffer with the
    converted values of the ticks written in order, so its count is the
    number of ticks, capped at 512, and its cursor that number modulo
    512.  Neither [read_data] nor the task writes to it. *)
Theorem buffer_holds_the_ticks (es : list event) (fs : FS) (s : firmware FS) :
  run K es (firmware_init fs) = Some s ->
  buffer s = write_all EMG_BUFFER_LEN (samples_of es) (buffer_init EMG_BUFFER_LEN) /\
  sample_count (buffer s) = Z.min (Z.of_nat (length (samples_of es))) EMG_BUFFER_LEN /\
  write_index (buffer s) = Z.of_nat (length (samples_of es)) mod EMG_BUFFER_LEN.
Proof.
  intros Hrun. apply run_buffer in Hrun. cbn [firmware_init buffer] in Hrun.
  rewrite Hrun.
  destruct (tracks_write_all EMG_BUFFER_LEN ltac:(reflexivity) ltac:(reflexivity)
              (buffer_init EMG_BUFFER_LEN) (samples_of es)
              (buffer_init_wf EMG_BUFFER_LEN ltac:(reflexivity)))
    as (_ & Hwi & Hsc & _).
  split; [reflexivity|]. split; [exact Hsc|exact Hwi].
Qed.

Lemma window_length (b : sample_buffer) (window : list float) :
  length window = Z.to_nat BUFFER_SIZE ->
  length (CircularBufferReadWindow EMG_BUFFER_LEN BUFFER_SIZE b window)
  = Z.to_nat BUFFER_SIZE.
Proof.
  intros Hlen. unfold CircularBufferReadWindow.
  destruct (sample_count b <? BUFFER_SIZE); [exact Hlen|].
  rewrite length_fmap, length_seqZ. reflexivity.
Qed.

Lemma step_shape (e : event) (s s' : firmware FS) :
  step K e s = Some s' ->
  buffer_wf EMG_BUFFER_LEN (buffer s) /\
  length (emg_window s) = Z.to_nat BUFFER_SIZE ->
  buffer_wf EMG_BUFFER_LEN (buffer s') /\
  length (emg_window s') = Z.to_nat BUFFER_SIZE.
Proof.
  intros Hstep [Hwf Hlen]. destruct e as [adc|data|]; cbn in Hstep.
  - injection Hstep as <-. cbn. split; [|exact Hlen].
    apply CircularBufferWrite_wf; [reflexivity|reflexivity|exact Hwf].
  - apply read_data_frame in Hstep. destruct Hstep as (-> & _ & -> & _). auto.
  - unfold EMGTask in Hstep. destruct (notified s =? 0); [discriminate|].
    injection Hstep as <-.
    destruct (EMGTask_cycle_fields K s) as (-> & -> & _).
    split; [exact Hwf|]. apply window_length, Hlen.
Qed.

(** X3.  In every state the firmware reaches from start-up, the sample
    array has its 512 slots, the write cursor points inside it, the
    sample count is between 0 and 512, and the analysis window has its
    512 elements: no event makes [emg_buffer[write_index]] or a window
    access fall outside its array. *)
Theorem arrays_keep_their_shape (es : list event) (fs : FS) (s : firmware FS) :
  run K es (firmware_init fs) = Some s ->
  length (emg_buffer (buffer s)) = Z.to_nat EMG_BUFFER_LEN /\
  0 <= write_index (buffer s) < EMG_BUFFER_LEN /\
  0 <= sample_count (buffer s) <= EMG_BUFFER_LEN /\
  length (emg_window s) = Z.to_nat BUFFER_SIZE.
Proof.
  intros Hrun.
  assert (H : buffer_wf EMG_BUFFER_LEN (buffer s) /\
              length (emg_window s) = Z.to_nat BUFFER_SIZE).
  { revert Hrun.
    assert (H0 : buffer_wf EMG_BUFFER_LEN (buffer (firmware_init fs)) /\
                 length (emg_window (firmware_init fs)) = Z.to_nat BUFFER_SIZE).
    { split; [apply buffer_init_wf; reflexivity|].
      cbn [firmware_init emg_window]. apply length_replicate. }
    revert H0. generalize (firmware_init fs). intros s0.
    revert s0. induction es as [|e es IH]; intros s0 H0; cbn [run].
    - intros [= <-]. exact H0.
    - destruct (step K e s0) as [s1|] eqn:E; [|discriminate].
      apply IH. apply (step_shape e s0 s1 E H0). }
  destruct H as ((H1 & H2 & H3) & H4). auto.
Qed.

Lemma step_without_task (e : event) (s s' : firmware FS) :
  is_wake e = false ->
  step K e s = Some s' ->
  fatigue s' = fatigue s /\ emg_window s' = emg_window s /\ filters s' = filters s.
Proof.
  destruct e as [adc|data|]; cbn; try discriminate; intros _.
  - intros [= <-]. cbn. auto.
  - intros H. apply read_data_frame in H. tauto.
Qed.

(** X7.  As long as the task does not run, nothing else touches the
    analysis: after any sequence of timer ticks and BLE messages - 'R',
    'B' or any other bytes - the classifier state, the analysis window
    and the filter state are what they were. *)
Theorem only_the_task_touches_the_analysis
  (es : list event) (s s' : firmware FS) :
  forallb (fun e => negb (is_wake e)) es = true ->
  run K es s = Some s' ->
  fatigue s' = fatigue s /\ emg_window s' = emg_window s /\ filters s' = filters s.
Proof.
  revert s. induction es as [|e es IH]; intros s; cbn [forallb run].
  - intros _ [= <-]. auto.
  - intros Hall. apply andb_prop in Hall as [He Hes].
    destruct (step K e s) as [s1|] eqn:E; [|discriminate].
    intros Hrun. destruct (IH s1 Hes Hrun) as (-> & -> & ->).
    apply (step_without_task e s s1); [|exact E].
    destruct (is_wake e); [discriminate|reflexivity].
Qed.

Lemma run_triggers (n : nat) (s : firmware FS) :
  exists s1 : firmware FS,
    run K (replicate n (Received ["R"%byte])) s = Some s1 /\
    notified s1 mod 2 ^ 32 = (notified s + Z.of_nat n) mod 2 ^ 32 /\
    fatigue s1 = fatigue s /\ buffer s1 = buffer s.
Proof.
  revert s. induction n as [|n IH]; intros s.
  - exists s. cbn [replicate run]. rewrite Z.add_0_r. auto.
  - destruct (IH (xTaskNotifyGive s)) as (s1 & Hrun & Hn & Hf & Hb).
    exists s1. cbn [replicate run step read_data].
    change (Byte.eqb "R" "R") with true. cbn iota.
    split; [exact Hrun|]. rewrite Hn, Hf, Hb.
    cbn [xTaskNotifyGive notified fatigue buffer].
    rewrite Zplus_mod_idemp_l. split; [f_equal; lia|auto].
Qed.

Lemma EMGTask_cycle_notified (s : firmware FS) : notified (EMGTask_cycle K s) = 0.
Proof.
  unfold EMGTask_cycle.
  destruct (HiPassFilter K _ _ _) as [fs1 filt0].
  destruct (LowPassFilter K _ _ _) as [fs2 filt].
  destruct (classify _ _) as [fat out]. reflexivity.
Qed.

(** X6.  Triggers do not queue up.  With no notification pending, any
    number of 'R' messages (at least one, fewer than 2^32) received
    before the task wakes up leads to one cycle - one classifier
    transition, the circular buffer untouched - and the task then
    blocks again: a second wake-up has nothing to take. *)
Theorem triggers_collapse_into_one_cycle (n : nat) (s : firmware FS) :
  notified s = 0 ->
  (0 < n)%nat ->
  Z.of_nat n < 2 ^ 32 ->
  exists s1 : firmware FS,
    run K (replicate n (Received ["R"%byte]) ++ [Wake]) s = Some s1 /\
    fatigue s1 = fatigue_update (f_median s1) (fatigue s) /\
    buffer s1 = buffer s /\
    run K (replicate n (Received ["R"%byte]) ++ [Wake; Wake]) s = None.
Proof.
  intros H0 Hn Hmax.
  destruct (run_triggers n s) as (s0 & Hrun & Hnot & Hf & Hb).
  rewrite H0, Z.add_0_l in Hnot.
  rewrite (Z.mod_small (Z.of_nat n)) in Hnot by lia.
  assert (Hne : (notified s0 =? 0) = false).
  { apply Z.eqb_neq. intros E. rewrite E, Zmod_0_l in Hnot. lia. }
  exists (EMGTask_cycle K s0).
  rewrite !run_app, Hrun. cbn [run step]. unfold EMGTask at 1 2. rewrite Hne.
  destruct (EMGTask_cycle_fields K s0) as (Hbuf & _ & _ & _ & _ & Hfat).
  rewrite Hf in Hfat. rewrite Hb in Hbuf.
  split; [reflexivity|]. split; [exact Hfat|]. split; [exact Hbuf|].
  unfold EMGTask. rewrite EMGTask_cycle_notified. reflexivity.
Qed.

End SystemFacts.

Lemma buffer_holds_the_ticks_witness :
  let r : reading := Braces in
  buffer (state_after [Tick 100; Received ["R"%byte]; Tick 200; Wake; Tick 300])
  = write_all EMG_BUFFER_LEN
      (samples_of [Tick 100; Received ["R"%byte]; Tick 200; Wake; Tick 300])
      (buffer_init EMG_BUFFER_LEN) /\
  sample_count
    (buffer (state_after [Tick 100; Received ["R"%byte]; Tick 200; Wake; Tick 300]))
  = Z.min (Z.of_nat (length
             (samples_of [Tick 100; Received ["R"%byte]; Tick 200; Wake; Tick 300])))
          EMG_BUFFER_LEN /\
  write_index
    (buffer (state_after [Tick 100; Received ["R"%byte]; Tick 200; Wake; Tick 300]))
  = Z.of_nat (length
      (samples_of [Tick 100; Received ["R"%byte]; Tick 200; Wake; Tick 300]))
    mod EMG_BUFFER_LEN.
Proof.
  intros r.
  apply (buffer_holds_the_ticks loopback_kernels
           [Tick 100; Received ["R"%byte]; Tick 200; Wake; Tick 300] tt).
  vm_compute. reflexivity.
Defined.

Lemma arrays_keep_their_shape_witness :
  let r : reading := Braces in
  length (emg_buffer (buffer (state_after [Tick 100; Received ["R"%byte]; Wake; Tick 300])))
    = Z.to_nat EMG_BUFFER_LEN /\
  0 <= write_index (buffer (state_after [Tick 100; Received ["R"%byte]; Wake; Tick 300]))
    < EMG_BUFFER_LEN /\
  0 <= sample_count (buffer (state_after [Tick 100; Received ["R"%byte]; Wake; Tick 300]))
    <= EMG_BUFFER_LEN /\
  length (emg_window (state_after [Tick 100; Received ["R"%byte]; Wake; Tick 300]))
    = Z.to_nat BUFFER_SIZE.
Proof.
  intros r.
  apply (arrays_keep_their_shape loopback_kernels
           [Tick 100; Received ["R"%byte]; Wake; Tick 300] tt).
  vm_compute. reflexivity.
Defined.

Lemma only_the_task_touches_the_analysis_witness :
  let r : reading := Braces in
  fatigue (state_after [Tick 1; Received ["B"%byte]; Received ["R"%byte]; Tick 2])
    = fatigue (firmware_init tt) /\
  emg_window (state_after [Tick 1; Received ["B"%byte]; Received ["R"%byte]; Tick 2])
    = emg_window (firmware_init tt) /\
  filters (state_after [Tick 1; Received ["B"%byte]; Received ["R"%byte]; Tick 2])
    = filters (firmware_init tt).
Proof.
  intros r.
  apply (only_the_task_touches_the_analysis loopback_kernels
           [Tick 1; Received ["B"%byte]; Received ["R"%byte]; Tick 2]).
  - reflexivity.
  - vm_compute. reflexivity.
Defined.

Lemma triggers_collapse_into_one_cycle_witness :
  let r : reading := Braces in
  exists s1 : firmware unit,
    run loopback_kernels (replicate 3 (Received ["R"%byte]) ++ [Wake]) (firmware_init tt)
      = Some s1 /\
    fatigue s1 = fatigue_update (f_median s1) (fatigue (firmware_init tt)) /\
    buffer s1 = buffer (firmware_init tt) /\
    run loopback_kernels (replicate 3 (Received ["R"%byte]) ++ [Wake; Wake])
        (firmware_init tt) = None.
Proof.
  intros r.
  apply triggers_collapse_into_one_cycle.
  - reflexivity.
  - lia.
  - reflexivity.
Defined.

(** ** The RMS of a window *)

Lemma binary_round_aux_sign (mx ex : Z) (lx : location) :
  sign_clear (binary_round_aux prec emax false mx ex lx) = true.
Proof.
  unfold binary_round_aux.
  destruct (shr_fexp prec emax mx ex lx) as [mrs' e'].
  destruct (shr_fexp prec emax _ e' loc_Exact) as [mrs'' e''].
  destruct (shr_m mrs''); [reflexivity| |reflexivity].
  destruct (e'' <=? emax - prec); reflexivity.
Qed.

Lemma binary_round_sign (mx : positive) (ex : Z) :
  sign_clear (binary_round prec emax false mx ex) = true.
Proof.
  unfold binary_round. destruct (shl_align _ _ _) as [mz ez].
  apply binary_round_aux_sign.
Qed.

Lemma f32_of_Z_sign (z : Z) : 0 <= z -> sign_clear (f32_of_Z z) = true.
Proof.
  intros Hz. destruct z as [|p|p]; [reflexivity| |lia].
  apply binary_round_sign.
Qed.

Lemma f32_mul_self_sign (x : float) : sign_clear (f32_mul x x) = true.
Proof.
  destruct x as [s|s| |s m e];
    [destruct s; reflexivity|destruct s; reflexivity|reflexivity|].
  unfold f32_mul, SFmul.
  replace (xorb s s) with false by (destruct s; reflexivity).
  apply binary_round_aux_sign.
Qed.

Lemma f32_add_sign (x y : float) :
  sign_clear x = true -> sign_clear y = true -> sign_clear (f32_add x y) = true.
Proof.
  destruct x as [[|]|[|]| |[|] mx ex], y as [[|]|[|]| |[|] my ey];
    cbn; try discriminate; try reflexivity.
  intros _ _. apply binary_round_sign.
Qed.

Lemma f32_div_sign (x y : float) :
  sign_clear x = true -> sign_clear y = true -> sign_clear (f32_div x y) = true.
Proof.
  destruct x as [[|]|[|]| |[|] mx ex], y as [[|]|[|]| |[|] my ey];
    cbn; try discriminate; try reflexivity.
  intros _ _.
  destruct (SFdiv_core_binary prec emax (Z.pos mx) ex (Z.pos my) ey) as [[mz ez] lz].
  apply binary_round_aux_sign.
Qed.

Lemma f32_sqrt_sign (x : float) :
  sign_clear x = true -> sign_clear (f32_sqrt x) = true.
Proof.
  destruct x as [[|]|[|]| |[|] mx ex]; cbn; try discriminate; try reflexivity.
  intros _.
  destruct (SFsqrt_core_binary prec emax (Z.pos mx) ex) as [[mz ez] lz].
  apply binary_round_aux_sign.
Qed.

Lemma sum_of_squares_sign (data : list float) (idx : list Z) (sum : float) :
  sign_clear sum = true ->
  sign_clear
    (fold_left (fun sum i => f32_add sum (f32_mul (aget data i) (aget data i))) idx sum)
  = true.
Proof.
  revert sum. induction idx as [|i idx IH]; intros sum Hs; [exact Hs|].
  cbn [fold_left]. apply IH, f32_add_sign; [exact Hs|apply f32_mul_self_sign].
Qed.

(** X8.  Over one sample or more, [CalcRMS] never returns a negative
    number nor [-0]: whatever the samples (negative, infinite, NaN), the
    result is NaN or has its sign bit clear.  Over no sample at all
    ([len = 0]) the quotient is [0 / 0] and the result is NaN. *)
Theorem CalcRMS_sign_and_empty (data : list float) (len : Z) :
  (0 < len -> sign_clear (CalcRMS data len) = true) /\
  CalcRMS data 0 = S754_nan.
Proof.
  split; [|reflexivity].
  intros Hlen. unfold CalcRMS.
  apply f32_sqrt_sign, f32_div_sign.
  - apply sum_of_squares_sign. reflexivity.
  - apply f32_of_Z_sign. lia.
Qed.

(** ** The frequency features on degenerate spectra *)

Section MedianFacts.
Context {F : Type} `{Arith F}.

Lemma fold_left_fmap_add (g : Z -> F) (idx : list Z) (acc : F) :
  fold_left a_add (g <$> idx) acc = fold_left (fun t i => a_add t (g i)) idx acc.
Proof.
  revert acc. induction idx as [|i idx IH]; intros acc; [reflexivity|].
  cbn. apply IH.
Qed.

Lemma magnitude_sum_total (mag : list F) (len : Z) :
  magnitude_sum mag len = total_loop mag (seqZ 0 len) a_zero.
Proof. unfold magnitude_sum, sum_list. apply fold_left_fmap_add. Qed.

Lemma prefix_sum_succ (mag : list F) (k : Z) :
  0 <= k -> prefix_sum mag (k + 1) = a_add (prefix_sum mag k) (aget mag k).
Proof.
  intros Hk. unfold prefix_sum, total_loop.
  rewrite seqZ_app by lia. rewrite fold_left_app. cbn.
  rewrite Z.add_0_l. reflexivity.
Qed.

(** The scan from bin [m] on, entered with the running sum of the bins
    before [m]: it stops at the first bin whose running sum reaches
    [half], and runs to the end when none does. *)
Lemma median_scan_spec (mag freqs : list F) (half : F) (n : nat) (m : Z) :
  0 <= m ->
  match median_scan mag freqs half (prefix_sum mag m) (seqZ m (Z.of_nat n)) with
  | Some fr =>
      exists i, m <= i < m + Z.of_nat n /\ fr = aget freqs i /\
                a_ge (prefix_sum mag (i + 1)) half = true /\
                forall j, m <= j < i -> a_ge (prefix_sum mag (j + 1)) half = false
  | None =>
      forall j, m <= j < m + Z.of_nat n -> a_ge (prefix_sum mag (j + 1)) half = false
  end.
Proof.
  revert m. induction n as [|n IH]; intros m Hm.
  - cbn. intros j Hj. lia.
  - rewrite seqZ_S by lia. rewrite median_scan_cons.
    rewrite <- prefix_sum_succ by exact Hm.
    destruct (a_ge (prefix_sum mag (m + 1)) half) eqn:Hge.
    + exists m. split; [lia|]. split; [reflexivity|]. split; [exact Hge|].
      intros j Hj. lia.
    + replace (Z.of_nat (S n) - 1) with (Z.of_nat n) by lia.
      specialize (IH (m + 1) ltac:(lia)).
      destruct (median_scan mag freqs half (prefix_sum mag (m + 1))
                            (seqZ (m + 1) (Z.of_nat n))) as [fr|].
      * destruct IH as (i & Hi & Hfr & Hcross & Hbefore).
        exists i. split; [lia|]. split; [exact Hfr|]. split; [exact Hcross|].
        intros j Hj. destruct (decide (j = m)) as [->|Hne]; [exact Hge|].
        apply Hbefore. lia.
      * intros j Hj. destruct (decide (j = m)) as [->|Hne]; [exact Hge|].
        apply IH. lia.
Qed.

Lemma median_scan_from_zero (mag freqs : list F) (half : F) (len : Z) :
  0 <= len ->
  match median_scan mag freqs half a_zero (seqZ 0 len) with
  | Some fr =>
      exists i, 0 <= i < len /\ fr = aget freqs i /\
                a_ge (prefix_sum mag (i + 1)) half = true /\
                forall j, 0 <= j < i -> a_ge (prefix_sum mag (j + 1)) half = false
  | None => forall j, 0 <= j < len -> a_ge (prefix_sum mag (j + 1)) half = false
  end.
Proof.
  intros Hlen.
  pose proof (median_scan_spec mag freqs half (Z.to_nat len) 0 ltac:(lia)) as Hs.
  rewrite Z2Nat.id in Hs by exact Hlen.
  change (prefix_sum mag 0) with (@a_zero F _) in Hs.
  destruct (median_scan mag freqs half a_zero (seqZ 0 len)) as [fr|].
  - destruct Hs as (i & Hi & Hfr & Hc & Hb). exists i.
    split; [lia|]. split; [exact Hfr|]. split; [exact Hc|].
    intros j Hj. apply Hb. lia.
  - intros j Hj. apply Hs. lia.
Qed.

(** X12.  What [CalcMedianFreq] returns, in terms of the running sums of
    the magnitudes: with [half] the total of the first [len] bins divided
    by two, either it is the frequency of the first bin [i] whose running
    sum (bins 0 to [i]) is [>= half], no earlier bin having reached it,
    or no bin reaches [half] and it is the frequency of bin [len - 1].
    This holds in every arithmetic, binary32 included. *)
Theorem median_is_first_crossing (mag freqs : list F) (len : Z) :
  let half := a_div (prefix_sum mag len) a_two in
  (exists i, 0 <= i < len /\ CalcMedianFreq mag freqs len = aget freqs i /\
             a_ge (prefix_sum mag (i + 1)) half = true /\
             forall j, 0 <= j < i -> a_ge (prefix_sum mag (j + 1)) half = false) \/
  (CalcMedianFreq mag freqs len = aget freqs (len - 1) /\
   forall j, 0 <= j < len -> a_ge (prefix_sum mag (j + 1)) half = false).
Proof.
  intros half. unfold CalcMedianFreq. fold (prefix_sum mag len). fold half.
  destruct (Z.le_gt_cases 0 len) as [Hlen|Hlen].
  - pose proof (median_scan_from_zero mag freqs half len Hlen) as Hs.
    destruct (median_scan mag freqs half a_zero (seqZ 0 len)) as [fr|].
    + left. destruct Hs as (i & Hi & Hfr & Hc & Hb). exists i. auto.
    + right. auto.
  - right. rewrite seqZ_nil by lia. cbn. split; [reflexivity|]. intros j Hj. lia.
Qed.

Lemma aget_in (freqs : list F) (i : Z) :
  0 <= i < Z.of_nat (length freqs) -> aget freqs i ∈ freqs.
Proof.
  intros Hi. unfold aget. destruct (Z.ltb_spec i 0); [lia|].
  apply list_elem_of_In, nth_In. lia.
Qed.

(** X11.  On [len >= 1] bins that the frequency vector holds,
    [CalcMedianFreq] returns one of the elements of the frequency vector:
    either path out of the function reads [freqs] at an index below
    [len]. *)
Theorem median_is_a_bin (mag freqs : list F) (len : Z) :
  0 < len <= Z.of_nat (length freqs) ->
  CalcMedianFreq mag freqs len ∈ freqs.
Proof.
  intros Hlen. unfold CalcMedianFreq.
  pose proof (median_scan_from_zero mag freqs
                (a_div (total_loop mag (seqZ 0 len) a_zero) a_two) len ltac:(lia)) as Hs.
  destruct (median_scan mag freqs _ a_zero (seqZ 0 len)) as [fr|].
  - destruct Hs as (i & Hi & -> & _). apply aget_in. lia.
  - apply aget_in. lia.
Qed.

(** X13.  Whenever the total of the magnitudes is [>=] its own half
    (the comparison as the code makes it), the fallback after the loop is
    not taken: on [len >= 1] bins the answer comes from inside the loop,
    from a bin whose running sum has reached the half. *)
Theorem median_answers_inside_the_loop (mag freqs : list F) (len : Z) :
  0 < len ->
  a_ge (prefix_sum mag len) (a_div (prefix_sum mag len) a_two) = true ->
  exists i, 0 <= i < len /\ CalcMedianFreq mag freqs len = aget freqs i /\
            a_ge (prefix_sum mag (i + 1)) (a_div (prefix_sum mag len) a_two) = true.
Proof.
  intros Hlen Hge. unfold CalcMedianFreq. fold (prefix_sum mag len).
  pose proof (median_scan_from_zero mag freqs
                (a_div (prefix_sum mag len) a_two) len ltac:(lia)) as Hs.
  destruct (median_scan mag freqs _ a_zero (seqZ 0 len)) as [fr|].
  - destruct Hs as (i & Hi & Hfr & Hc & _). exists i. auto.
  - specialize (Hs (len - 1) ltac:(lia)).
    replace (len - 1 + 1) with len in Hs by lia. congruence.
Qed.

End MedianFacts.

Lemma median_is_a_bin_witness :
  CalcMedianFreq [hz 1; hz 5; hz 1] [hz 10; hz 20; hz 30] 3 ∈ [hz 10; hz 20; hz 30].
Proof. apply median_is_a_bin. cbn. lia. Defined.

Lemma median_answers_inside_the_loop_witness :
  exists i, 0 <= i < 3 /\
    CalcMedianFreq [hz 1; hz 5; hz 1] [hz 10; hz 20; hz 30] 3
      = aget [hz 10; hz 20; hz 30] i /\
    a_ge (prefix_sum [hz 1; hz 5; hz 1] (i + 1))
         (a_div (prefix_sum [hz 1; hz 5; hz 1] 3) a_two) = true.
Proof. apply median_answers_inside_the_loop; [lia|reflexivity]. Defined.

Lemma total_loop_nan (mag : list float) (idx : list Z) :
  total_loop mag idx S754_nan = S754_nan.
Proof.
  induction idx as [|i idx IH]; [reflexivity|]. rewrite total_loop_cons. exact IH.
Qed.

(** One NaN among the bins added makes the sum NaN. *)
Lemma total_loop_nan_bin (mag : list float) (idx : list Z) (total : float) (i : Z) :
  i ∈ idx -> is_nan32 (aget mag i) = true ->
  total_loop mag idx total = S754_nan.
Proof.
  intros Hin Hnan. revert total.
  induction idx as [|j idx IH]; intros total; [inversion Hin|].
  rewrite total_loop_cons.
  apply elem_of_cons in Hin as [<-|Hin].
  - destruct (aget mag i); try discriminate.
    replace (a_add total S754_nan) with S754_nan by (destruct total; reflexivity).
    apply total_loop_nan.
  - apply IH. exact Hin.
Qed.

Lemma median_scan_nan_half (mag freqs : list float) (accum : float) (idx : list Z) :
  median_scan mag freqs S754_nan accum idx = None.
Proof.
  revert accum. induction idx as [|i idx IH]; intros accum; [reflexivity|].
  rewrite median_scan_cons.
  replace (a_ge (a_add accum (aget mag i)) S754_nan) with false; [apply IH|].
  reflexivity.
Qed.

(** X14.  If one of the first [len] magnitudes is NaN, [CalcMedianFreq]
    returns the frequency of the last bin, [freqs[len - 1]]: the total
    and its half are NaN, no comparison [accum >= half] succeeds, and the
    loop runs to its end. *)
Theorem nan_magnitude_gives_last_bin (mag freqs : list float) (len i : Z) :
  0 <= i < len ->
  is_nan32 (aget mag i) = true ->
  CalcMedianFreq mag freqs len = aget freqs (len - 1).
Proof.
  intros Hi Hnan. unfold CalcMedianFreq.
  rewrite (total_loop_nan_bin mag (seqZ 0 len) a_zero i).
  - change (a_div S754_nan a_two) with S754_nan.
    rewrite median_scan_nan_half. reflexivity.
  - apply elem_of_seqZ. lia.
  - exact Hnan.
Qed.

Lemma nan_magnitude_gives_last_bin_witness :
  CalcMedianFreq [hz 9; S754_nan; hz 1] [hz 10; hz 20; hz 30] 3
  = aget [hz 10; hz 20; hz 30] (3 - 1).
Proof. apply (nan_magnitude_gives_last_bin _ _ 3 1); [lia|reflexivity]. Defined.

(** X10.  If one of the first [len] magnitudes is NaN, [CalcMeanFreq]
    returns [0.0], not NaN: the denominator is NaN, the test [den > 0]
    fails, and the guard answers for it. *)
Theorem nan_magnitude_gives_zero_mean (mag freqs : list float) (len i : Z) :
  0 <= i < len ->
  is_nan32 (aget mag i) = true ->
  CalcMeanFreq mag freqs len = f32_zero.
Proof.
  intros Hi Hnan. rewrite CalcMeanFreq_sums, magnitude_sum_total.
  rewrite (total_loop_nan_bin mag (seqZ 0 len) a_zero i); [reflexivity| |exact Hnan].
  apply elem_of_seqZ. lia.
Qed.

Lemma nan_magnitude_gives_zero_mean_witness :
  CalcMeanFreq [hz 9; S754_nan; hz 1] [hz 10; hz 20; hz 30] 3 = f32_zero.
Proof. apply (nan_magnitude_gives_zero_mean _ _ 3 1); [lia|reflexivity]. Defined.

(** X9.  On a spectrum whose magnitudes are all zero (of either sign)
    [CalcMeanFreq] returns [0.0], for every frequency vector and every
    length: the denominator is [+0] and the guard answers. *)
Theorem mean_of_zero_spectrum (mag freqs : list float) (len : Z) :
  Forall (fun m => is_zero32 m = true) mag ->
  CalcMeanFreq mag freqs len = f32_zero.
Proof.
  intros Hz. rewrite CalcMeanFreq_sums, magnitude_sum_total.
  change (@a_zero float arith_f32) with f32_zero.
  rewrite total_loop_zero by exact Hz. reflexivity.
Qed.

Lemma mean_of_zero_spectrum_witness :
  CalcMeanFreq [f32_zero; S754_zero true] [hz 10; hz 20] 2 = f32_zero.
Proof. apply mean_of_zero_spectrum. repeat constructor. Defined.

(** ** Sessions of the classifier *)

(** As before, [r] is either reading. *)
Section SessionFacts.
Context {r : reading}.

(** X16.  In a session of fewer than 2^31 windows, [window_counter] is
    the number of windows classified so far.  [f_ref_established] is true
    exactly when that number has reached [BASELINE_WINDOWS] and the
    second block follows the first ([Layout]); with the braces as they
    stand no window sets it. *)
Theorem session_counts_windows (fmeds : list float) :
  Z.of_nat (length fmeds) < 2 ^ 31 ->
  window_counter (fatigue_run fmeds fatigue_init) = Z.of_nat (length fmeds) /\
  (f_ref_established (fatigue_run fmeds fatigue_init) = true
   <-> r = Layout /\ BASELINE_WINDOWS <= Z.of_nat (length fmeds)).
Proof.
  intros Hlen. destruct (warm_up_progress fmeds Hlen) as [Hwc He].
  split; [exact Hwc|]. rewrite He. destruct r.
  - split; [discriminate|]. intros [E _]. discriminate E.
  - rewrite Z.leb_le. tauto.
Qed.

(** X17.  From the fifth window on and for the rest of the session
    (fewer than 2^31 windows), [f_ref] is the binary32 mean of the median
    frequencies of the first five windows - their sum, added in order
    from zero, divided by 5 - whatever the later windows are. *)
Theorem reference_is_baseline_mean (fmeds : list float) :
  BASELINE_WINDOWS <= Z.of_nat (length fmeds) < 2 ^ 31 ->
  f_ref (fatigue_run fmeds fatigue_init)
  = f32_div (sum_list (take 5 fmeds)) (f32_of_Z BASELINE_WINDOWS).
Proof.
  unfold BASELINE_WINDOWS at 1.
  induction fmeds as [|fmed fmeds IH] using rev_ind; intros Hlen.
  - cbn in Hlen. lia.
  - rewrite length_app in Hlen. cbn [length] in Hlen.
    destruct (decide (length fmeds = 4%nat)) as [H4|H4].
    + destruct fmeds as [|m1 [|m2 [|m3 [|m4 [|m5 rest]]]]]; try discriminate H4.
      apply (reference_after_baseline m1 m2 m3 m4 fmed).
    + destruct (warm_up_progress fmeds ltac:(lia)) as [Hwc He].
      rewrite fatigue_run_snoc, fatigue_update_reference_frozen.
      * rewrite IH by lia. rewrite take_app_le by lia. reflexivity.
      * rewrite fatigue_update_counter, Hwc, wrap_int_small by lia.
        unfold BASELINE_WINDOWS. lia.
Qed.

(** What a block can do to the counter and the flag. *)
Lemma first_block_verdict (fmed : float) (s : fatigue_state) :
  let s1 := fst (first_block fmed s) in
  (fatigue_consecutive s1 = fatigue_consecutive s /\
   fatigue_detected s1 = fatigue_detected s) \/
  (BASELINE_WINDOWS < window_counter s /\
   f32_gt (f_ref s) f32_zero = true /\
   fatigue_consecutive s1 = wrap_int (fatigue_consecutive s + 1) /\
   fatigue_detected s1
   = fatigue_detected s || (CONSECUTIVE_WINDOWS <=? wrap_int (fatigue_consecutive s + 1))).
Proof.
  cbv zeta. unfold first_block.
  destruct (Z.leb_spec (window_counter s) BASELINE_WINDOWS) as [Hle|Hgt].
  - left. destruct (window_counter _ =? BASELINE_WINDOWS); cbn; auto.
  - destruct (f32_gt (f_ref s) f32_zero) eqn:Href; [|left; auto].
    destruct (f32_gt (drop_of (f_ref s) fmed) FATIGUE_THRESHOLD); [|left; auto].
    right. split; [exact Hgt|]. split; [reflexivity|].
    cbn [set_fatigue_consecutive fatigue_consecutive fatigue_detected].
    destruct (fatigue_detected s) eqn:Hd;
      destruct (CONSECUTIVE_WINDOWS <=? wrap_int (fatigue_consecutive s + 1)) eqn:Hc;
      cbn; rewrite ?Hd, ?Hc; cbn; rewrite ?Hd; auto.
Qed.

Lemma second_block_verdict (fmed : float) (s : fatigue_state) :
  let s2 := fst (second_block fmed s) in
  (fatigue_consecutive s2 = fatigue_consecutive s /\
   fatigue_detected s2 = fatigue_detected s) \/
  (f_ref_established s = true /\ f32_gt (f_ref s) f32_zero = true /\
   ((fatigue_consecutive s2 = 0 /\ fatigue_detected s2 = fatigue_detected s) \/
    (fatigue_consecutive s2 = wrap_int (fatigue_consecutive s + 1) /\
     fatigue_detected s2
     = fatigue_detected s
       || (CONSECUTIVE_WINDOWS <=? wrap_int (fatigue_consecutive s + 1))))).
Proof.
  cbv zeta. unfold second_block.
  destruct (f_ref_established s) eqn:He; cbn [negb].
  - destruct (f32_gt (f_ref s) f32_zero) eqn:Href; [|left; auto].
    right. split; [reflexivity|]. split; [reflexivity|].
    destruct (f32_gt (drop_of (f_ref s) fmed) FATIGUE_THRESHOLD); [|left; auto].
    right.
    cbn [set_fatigue_consecutive fatigue_consecutive fatigue_detected].
    destruct (fatigue_detected s) eqn:Hd;
      destruct (CONSECUTIVE_WINDOWS <=? wrap_int (fatigue_consecutive s + 1)) eqn:Hc;
      cbn; rewrite ?Hd, ?Hc; cbn; rewrite ?Hd; auto.
  - left.
    destruct (window_counter s <=? BASELINE_WINDOWS); cbn;
      destruct (window_counter s =? BASELINE_WINDOWS); cbn; auto.
Qed.

(** A window of the baseline leaves the counter and the flag alone. *)
Lemma warm_up_window_verdict_free (fmed : float) (s : fatigue_state) :
  f_ref_established s = false ->
  window_counter (fatigue_update fmed s) <= BASELINE_WINDOWS ->
  fatigue_consecutive (fatigue_update fmed s) = fatigue_consecutive s /\
  fatigue_detected (fatigue_update fmed s) = fatigue_detected s.
Proof.
  intros He Hwc. rewrite fatigue_update_counter in Hwc. rewrite fatigue_update_eq.
  destruct (first_block_frame fmed (count_window s)) as (_ & He1 & _).
  destruct (first_block_verdict fmed (count_window s)) as [[Hc Hd]|(Hgt & _)];
    [|cbn in Hgt; lia].
  destruct (reaches_second_block _); [|auto].
  destruct (second_block_verdict fmed (fst (first_block fmed (count_window s))))
    as [[Hc2 Hd2]|(He2 & _)].
  - rewrite Hc2, Hd2, Hc, Hd. auto.
  - rewrite He1 in He2. cbn in He2. congruence.
Qed.

Lemma baseline_verdict_free (fmeds : list float) :
  Z.of_nat (length fmeds) <= BASELINE_WINDOWS ->
  fatigue_consecutive (fatigue_run fmeds fatigue_init) = 0 /\
  fatigue_detected (fatigue_run fmeds fatigue_init) = false.
Proof.
  unfold BASELINE_WINDOWS.
  induction fmeds as [|fmed fmeds IH] using rev_ind; intros Hlen.
  - auto.
  - rewrite length_app in Hlen. cbn [length] in Hlen.
    destruct (warm_up_progress fmeds ltac:(lia)) as [Hwc He].
    destruct IH as [Hc Hd]; [lia|].
    rewrite fatigue_run_snoc.
    destruct (warm_up_window_verdict_free fmed (fatigue_run fmeds fatigue_init))
      as [-> ->]; [| |auto].
    + rewrite He. destruct r; [reflexivity|].
      apply Z.leb_gt. unfold BASELINE_WINDOWS. lia.
    + rewrite fatigue_update_counter, Hwc, wrap_int_small by lia.
      unfold BASELINE_WINDOWS. lia.
Qed.

(** X18.  No session sets [fatigue_detected] within its first six
    windows, whatever their median frequencies: the five baseline windows
    leave the counter at 0, and one window past the baseline raises it to
    2 at most. *)
Theorem no_verdict_before_seventh_window (fmeds : list float) :
  Z.of_nat (length fmeds) <= BASELINE_WINDOWS + 1 ->
  fatigue_detected (fatigue_run fmeds fatigue_init) = false.
Proof.
  unfold BASELINE_WINDOWS. intros Hlen.
  destruct (Z.le_gt_cases (Z.of_nat (length fmeds)) 5) as [H5|H6].
  - apply baseline_verdict_free, H5.
  - destruct fmeds as [|fmed fmeds _] using rev_ind; [cbn in H6; lia|].
    rewrite length_app in Hlen, H6. cbn [length] in Hlen, H6.
    destruct (baseline_verdict_free fmeds) as [Hc Hd]; [unfold BASELINE_WINDOWS; lia|].
    rewrite fatigue_run_snoc, fatigue_update_eq.
    set (s := fatigue_run fmeds fatigue_init) in *.
    destruct (reaches_second_block _);
      destruct (first_block_verdict fmed (count_window s)) as [[Hc1 Hd1]|(_ & _ & Hc1 & Hd1)];
      try (destruct (second_block_verdict fmed (fst (first_block fmed (count_window s))))
            as [[Hc2 Hd2]|(_ & _ & [[Hc2 Hd2]|[Hc2 Hd2]])]; rewrite Hd2);
      rewrite ?Hd1, ?Hc1; cbn [count_window set_window_counter fatigue_consecutive
                                     fatigue_detected];
      rewrite ?Hc, ?Hd; reflexivity.
Qed.

(** With a reference that is not positive, a window past the baseline is
    counted and nothing more. *)
Lemma fatigue_update_without_reference (fmed : float) (s : fatigue_state) :
  BASELINE_WINDOWS < window_counter (fatigue_update fmed s) ->
  f32_gt (f_ref s) f32_zero = false ->
  fatigue_update fmed s = count_window s.
Proof.
  intros Hwc Href. rewrite fatigue_update_counter in Hwc.
  rewrite fatigue_update_eq.
  assert (H1 : fst (first_block fmed (count_window s)) = count_window s).
  { unfold first_block. cbn [count_window set_window_counter window_counter f_ref].
    destruct (Z.leb_spec (wrap_int (window_counter s + 1)) BASELINE_WINDOWS); [lia|].
    rewrite Href. reflexivity. }
  rewrite H1. destruct (reaches_second_block _); [|reflexivity].
  unfold second_block.
  cbn [count_window set_window_counter window_counter f_ref_established f_ref].
  rewrite Href.
  destruct (Z.leb_spec (wrap_int (window_counter s + 1)) BASELINE_WINDOWS); [lia|].
  cbn [count_window set_window_counter window_counter].
  destruct (Z.eqb_spec (wrap_int (window_counter s + 1)) BASELINE_WINDOWS); [lia|].
  destruct (negb (f_ref_established s)); reflexivity.
Qed.

(** X19.  When the reference frequency is not positive once the
    baseline is over ([f_ref > 0] false: zero, negative or NaN), the
    classifier is inert for the rest of the session: whatever the
    windows, [f_ref], [fatigue_consecutive] and [fatigue_detected] keep
    their values.  A baseline taken on an empty window has this effect. *)
Theorem no_reference_no_verdict (fmeds : list float) (s : fatigue_state) :
  BASELINE_WINDOWS <= window_counter s ->
  window_counter s + Z.of_nat (length fmeds) < 2 ^ 31 ->
  f32_gt (f_ref s) f32_zero = false ->
  f_ref (fatigue_run fmeds s) = f_ref s /\
  fatigue_consecutive (fatigue_run fmeds s) = fatigue_consecutive s /\
  fatigue_detected (fatigue_run fmeds s) = fatigue_detected s.
Proof.
  revert s. induction fmeds as [|fmed fmeds IH]; intros s Hwc Hmax Href; [auto|].
  cbn [length] in Hmax. unfold BASELINE_WINDOWS in Hwc.
  rewrite fatigue_run_cons, fatigue_update_without_reference; try assumption.
  - destruct (IH (count_window s)) as (-> & -> & ->); try assumption.
    + cbn. rewrite wrap_int_small by lia. unfold BASELINE_WINDOWS. lia.
    + cbn. rewrite wrap_int_small by lia. lia.
    + auto.
  - rewrite fatigue_update_counter, wrap_int_small by lia.
    unfold BASELINE_WINDOWS. lia.
Qed.

(** What the second block does to the counter on a window whose drop
    exceeds the threshold: it adds one or leaves it. *)
Lemma second_block_drop (fmed : float) (s : fatigue_state) :
  f32_gt (drop_of (f_ref s) fmed) FATIGUE_THRESHOLD = true ->
  fatigue_consecutive (fst (second_block fmed s)) = fatigue_consecutive s \/
  fatigue_consecutive (fst (second_block fmed s)) = wrap_int (fatigue_consecutive s + 1).
Proof.
  intros Hdrop. unfold second_block.
  destruct (negb (f_ref_established s)).
  - left. destruct (window_counter s <=? BASELINE_WINDOWS); cbn;
      destruct (window_counter s =? BASELINE_WINDOWS); reflexivity.
  - destruct (f32_gt (f_ref s) f32_zero); [|left; reflexivity].
    rewrite Hdrop. right. classifier_cases; reflexivity.
Qed.

(** One window past the baseline whose drop exceeds the threshold: the
    reference stays, the counter goes up by one or two, and the flag is
    up afterwards if it was up or if the counter was at two or more. *)
Lemma drop_window_step (fmed : float) (s : fatigue_state) :
  BASELINE_WINDOWS < window_counter (fatigue_update fmed s) ->
  f32_gt (f_ref s) f32_zero = true ->
  f32_gt (drop_of (f_ref s) fmed) FATIGUE_THRESHOLD = true ->
  0 <= fatigue_consecutive s < 2 ^ 31 - 2 ->
  f_ref (fatigue_update fmed s) = f_ref s /\
  fatigue_consecutive s + 1 <= fatigue_consecutive (fatigue_update fmed s)
    <= fatigue_consecutive s + 2 /\
  (CONSECUTIVE_WINDOWS <= fatigue_consecutive s + 1 ->
   fatigue_detected (fatigue_update fmed s) = true).
Proof.
  intros Hwc Href Hdrop Hfc.
  split; [apply fatigue_update_reference_frozen, Hwc|].
  rewrite fatigue_update_counter in Hwc. rewrite fatigue_update_eq.
  assert (H1 : f_ref (fst (first_block fmed (count_window s))) = f_ref s /\
               fatigue_consecutive (fst (first_block fmed (count_window s)))
               = fatigue_consecutive s + 1 /\
               (CONSECUTIVE_WINDOWS <= fatigue_consecutive s + 1 ->
                fatigue_detected (fst (first_block fmed (count_window s))) = true)).
  { unfold first_block. cbn [count_window set_window_counter window_counter f_ref].
    destruct (Z.leb_spec (wrap_int (window_counter s + 1)) BASELINE_WINDOWS); [lia|].
    rewrite Href, Hdrop.
    cbn [count_window set_window_counter set_fatigue_consecutive
         fatigue_consecutive fatigue_detected].
    rewrite (wrap_int_small (fatigue_consecutive s + 1)) by lia.
    destruct (fatigue_detected s) eqn:Hd;
      destruct (Z.leb_spec CONSECUTIVE_WINDOWS (fatigue_consecutive s + 1));
      cbn; rewrite ?Hd; repeat split; auto; lia. }
  destruct H1 as (Hf & Hc & Hd).
  destruct (reaches_second_block _).
  - rewrite <- Hf in Hdrop.
    destruct (second_block_drop fmed _ Hdrop) as [-> | ->];
      rewrite Hc, ?wrap_int_small by lia;
      (split; [lia|]); intros H3; apply second_block_detected, Hd, H3.
  - rewrite Hc. split; [lia|exact Hd].
Qed.

(** X20.  Past the baseline, three windows in a row whose drop exceeds
    the threshold leave [fatigue_detected] true, whatever the counter
    held before them and under either reading of the braces: the first
    block counts each of them. *)
Theorem third_drop_window_latched (m1 m2 m3 : float) (s : fatigue_state) :
  BASELINE_WINDOWS <= window_counter s < 2 ^ 31 - 3 ->
  0 <= fatigue_consecutive s < 2 ^ 31 - 6 ->
  f32_gt (f_ref s) f32_zero = true ->
  f32_gt (drop_of (f_ref s) m1) FATIGUE_THRESHOLD = true ->
  f32_gt (drop_of (f_ref s) m2) FATIGUE_THRESHOLD = true ->
  f32_gt (drop_of (f_ref s) m3) FATIGUE_THRESHOLD = true ->
  fatigue_detected (fatigue_run [m1; m2; m3] s) = true.
Proof.
  intros Hwc Hfc Href Hd1 Hd2 Hd3. unfold BASELINE_WINDOWS in Hwc.
  change (fatigue_run [m1; m2; m3] s)
    with (fatigue_update m3 (fatigue_update m2 (fatigue_update m1 s))).
  set (s1 := fatigue_update m1 s). set (s2 := fatigue_update m2 s1).
  assert (W1 : window_counter s1 = window_counter s + 1)
    by (unfold s1; rewrite fatigue_update_counter, wrap_int_small by lia; reflexivity).
  assert (W2 : window_counter s2 = window_counter s + 2)
    by (unfold s2; rewrite fatigue_update_counter, W1, wrap_int_small by lia; lia).
  destruct (drop_window_step m1 s) as (F1 & N1 & _); try assumption.
  { fold s1. rewrite W1. unfold BASELINE_WINDOWS. lia. }
  { lia. }
  fold s1 in F1, N1.
  destruct (drop_window_step m2 s1) as (F2 & N2 & _).
  { fold s2. rewrite W2. unfold BASELINE_WINDOWS. lia. }
  { rewrite F1. exact Href. }
  { rewrite F1. exact Hd2. }
  { lia. }
  fold s2 in F2, N2.
  destruct (drop_window_step m3 s2) as (_ & _ & D3).
  { rewrite fatigue_update_counter, W2, wrap_int_small by lia.
    unfold BASELINE_WINDOWS. lia. }
  { rewrite F2, F1. exact Href. }
  { rewrite F2, F1. exact Hd3. }
  { lia. }
  apply D3. unfold CONSECUTIVE_WINDOWS. lia.
Qed.

End SessionFacts.

Lemma session_counts_windows_witness :
  let r : reading := Layout in
  window_counter (fatigue_run (replicate 6 (hz 90)) fatigue_init)
    = Z.of_nat (length (replicate 6 (hz 90))) /\
  (f_ref_established (fatigue_run (replicate 6 (hz 90)) fatigue_init) = true
   <-> r = Layout /\ BASELINE_WINDOWS <= Z.of_nat (length (replicate 6 (hz 90)))).
Proof. intros r. apply session_counts_windows. cbn. lia. Defined.

Lemma reference_is_baseline_mean_witness :
  let r : reading := Braces in
  f_ref (fatigue_run [hz 90; hz 95; hz 100; hz 105; hz 110; hz 60; hz 70] fatigue_init)
  = f32_div (sum_list (take 5 [hz 90; hz 95; hz 100; hz 105; hz 110; hz 60; hz 70]))
            (f32_of_Z BASELINE_WINDOWS).
Proof. intros r. apply reference_is_baseline_mean. unfold BASELINE_WINDOWS. cbn. lia. Defined.

Lemma no_verdict_before_seventh_window_witness :
  let r : reading := Braces in
  fatigue_detected
    (fatigue_run [hz 100; hz 100; hz 100; hz 100; hz 100; hz 10] fatigue_init) = false.
Proof.
  intros r. apply no_verdict_before_seventh_window. unfold BASELINE_WINDOWS. cbn. lia.
Defined.

Lemma no_reference_no_verdict_witness :
  let r : reading := Braces in
  let s := fatigue_run (replicate 5 f32_zero) fatigue_init in
  f_ref (fatigue_run [hz 100; hz 50; hz 50; hz 50] s) = f_ref s /\
  fatigue_consecutive (fatigue_run [hz 100; hz 50; hz 50; hz 50] s) = fatigue_consecutive s /\
  fatigue_detected (fatigue_run [hz 100; hz 50; hz 50; hz 50] s) = fatigue_detected s.
Proof.
  intros r s. apply no_reference_no_verdict.
  - vm_compute. discriminate.
  - vm_compute. reflexivity.
  - reflexivity.
Defined.

Lemma third_drop_window_latched_witness :
  let r : reading := Braces in
  let s := fatigue_run (replicate 5 (hz 100)) fatigue_init in
  fatigue_detected (fatigue_run [hz 80; hz 80] s) = false /\
  fatigue_detected (fatigue_run [hz 80; hz 80; hz 70] s) = true.
Proof.
  intros r s. split; [reflexivity|].
  apply third_drop_window_latched.
  - vm_compute. split; [discriminate|reflexivity].
  - vm_compute. split; [discriminate|reflexivity].
  - reflexivity.
  - reflexivity.
  - reflexivity.
  - reflexivity.
Defined.
